(** * Diabetes screening service: tongue and nail image scoring

    A shallow embedding of [app/models.py], [app/predictor.py],
    [app/utils.py] and [app/main.py], followed by the properties proved
    about them.

    - Python [float] is IEEE-754 binary64.  It is modelled by the Standard
      Library's [spec_float] at precision 53 and maximal exponent 1024, with
      its correctly rounded operations; nothing is idealised to real or
      rational arithmetic.
    - PIL, NumPy and Keras are external: they appear as fields of the records
      [Imaging] and [DiabetesPredictor], and every call into them may raise.
    - The module [random] is external too: its generator state and the two
      primitives [random()] and [_randbelow(n)] form the record
      [RandomSource]; [uniform] and [sample] are written out on top of them
      as CPython defines them.
    - Exceptions are values of [result]; the HTTP layer turns them into
      [HTTPException]. *)

From Stdlib Require Import ZArith Lia Bool List String.
From Stdlib Require Import Strings.Byte.
From Stdlib Require Import Floats.SpecFloat.
From stdpp Require Import base option list strings gmap.

Local Open Scope string_scope.

(* ================================================================= *)
(** ** Binary64 floating point *)

Module Binary64.
Local Open Scope Z_scope.

Definition prec : Z := 53.
Definition emax : Z := 1024.

Definition float : Type := spec_float.

(** [float(z)] for a Python [int]: correctly rounded conversion. *)
Definition of_int (z : Z) : float := binary_normalize prec emax z 0 false.

(** The literal [0.5]. *)
Definition half : float := S754_finite false (2 ^ 52) (-53).

Definition zero : float := of_int 0.
Definition one : float := of_int 1.

Definition add : float -> float -> float := SFadd prec emax.
Definition sub : float -> float -> float := SFsub prec emax.
Definition mul : float -> float -> float := SFmul prec emax.
Definition div : float -> float -> float := SFdiv prec emax.

(** Python's [x < y], [x <= y] and [x >= y]; all are false on NaN. *)
Definition lt (x y : float) : bool := SFltb x y.
Definition le (x y : float) : bool := SFleb x y.
Definition ge (x y : float) : bool := SFleb y x.

(** [a <= x <= b] as a Python chained comparison. *)
Definition between (a x b : float) : bool := le a x && le x b.

(** *** Specification-level view of a float

    Every binary64 number, and every exact sum, difference or product of two
    of them, is an integer multiple of [2 ^ - scale].  [fixed x] is that
    integer for a finite [x]; it is what comparisons and rounding are
    specified against. *)

Definition scale : Z := 2148.

Definition fixed (x : float) : Z :=
  match x with
  | S754_finite s m e => cond_Zopp s (Zpos m * 2 ^ (e + scale))
  | _ => 0
  end.

Definition nonneg_finite (x : float) : bool :=
  match x with
  | S754_zero _ => true
  | S754_finite s _ _ => negb s
  | _ => false
  end.

(** A well-formed binary64 number that is finite and not negative. *)
Definition good (x : float) : Prop :=
  valid_binary prec emax x = true /\ nonneg_finite x = true.

(** A well-formed binary64 number in the closed unit interval, as a test the
    program could run: [0 <= x <= 1]. *)
Definition in_unit_interval (x : float) : Prop :=
  valid_binary prec emax x = true /\ le zero x = true /\ le x one = true.

(** The same with the right end excluded, the range of [random.random()]. *)
Definition in_unit_half_open (x : float) : Prop :=
  valid_binary prec emax x = true /\ le zero x = true /\ lt x one = true.

(** The float with integer mantissa [k] on the grid [2 ^ f], renormalised
    when the mantissa has grown to [2 ^ 53]. *)
Definition encode (k f : Z) : float :=
  if k =? 0 then S754_zero false
  else if k =? 2 ^ 53 then S754_finite false (2 ^ 52) (f + 1)
  else S754_finite false (Z.to_pos k) f.

(** A shift record carries no discarded bit. *)
Definition exact_rec (mrs : shr_record) : bool := negb (shr_r mrs || shr_s mrs).

(** [y] is [x] shifted right by [k] bits. *)
Definition shifted (k : Z) (x y : shr_record) : Prop :=
  shr_m y = shr_m x / 2 ^ k /\
  (exact_rec x = true -> shr_m x mod 2 ^ k = 0 -> exact_rec y = true).

End Binary64.

Import Binary64.

(* ================================================================= *)
(** ** Exceptions *)

Inductive exn_kind : Type :=
  | ImageError        (* anything PIL or NumPy raises *)
  | ModelError        (* anything Keras raises *)
  | AttributeError
  | KeyError
  | IndexError
  | ValueError
  | Unmodelled.       (* a library path left out of the embedding *)

Record exn : Type := { exn_type : exn_kind; str : string }.

Inductive result (A : Type) : Type :=
  | Ok (a : A)
  | Raise (e : exn).
Arguments Ok {A} a.
Arguments Raise {A} e.

#[global] Instance result_ret : MRet result := fun A a => Ok a.
#[global] Instance result_bind : MBind result := fun A B f m =>
  match m with
  | Ok a => f a
  | Raise e => Raise e
  end.
#[global] Instance result_fmap : FMap result := fun A B f m =>
  match m with
  | Ok a => Ok (f a)
  | Raise e => Raise e
  end.

Definition raises {A : Type} (m : result A) : bool :=
  match m with
  | Ok _ => false
  | Raise _ => true
  end.

(* ================================================================= *)
(** ** app/models.py *)

Inductive RiskLevel : Type := RENDAH | SEDANG | TINGGI.

Inductive DetectionType : Type := LIDAH | KUKU.

Record SingleDetectionResult : Type := {
  detection_type : DetectionType;
  is_diabetic : bool;
  confidence : float;
  label : string
}.

Record DiabetesAnalysisResponse : Type := {
  risk_level : RiskLevel;
  risk_percentage : float;
  lidah_result : option SingleDetectionResult;
  kuku_result : option SingleDetectionResult;
  risk_factors_identified : list string;
  recommendation : string
}.

Record HealthCheckResponse : Type := {
  status : string;
  message : string
}.

(** The value of a [RiskLevel] member ([class RiskLevel(str, Enum)]). *)
Definition RiskLevel_value (r : RiskLevel) : string :=
  match r with
  | RENDAH => "rendah"
  | SEDANG => "sedang"
  | TINGGI => "tinggi"
  end.

Definition DetectionType_value (d : DetectionType) : string :=
  match d with
  | LIDAH => "lidah"
  | KUKU => "kuku"
  end.

(** The order Low < Moderate < High of the tiers. *)
Definition RiskLevel_rank (r : RiskLevel) : nat :=
  match r with
  | RENDAH => 0
  | SEDANG => 1
  | TINGGI => 2
  end.

(* ================================================================= *)
(** ** app/predictor.py *)

Definition bytes : Type := list Byte.byte.

(** [np.array(img)]: height x width x channel, [uint8]. *)
Definition pixels : Type := list (list (list Byte.byte)).

(** The model input: batch x height x width x channel, [float64]. *)
Definition tensor : Type := list (list (list (list float))).

(** What the program uses of PIL and NumPy. *)
Record Imaging : Type := {
  image : Type;
  Image_open : bytes -> result image;
  mode : image -> string;
  convert : image -> string -> result image;
  resize : image -> nat * nat -> result image;
  np_array : image -> result pixels
}.

(** [self] of [DiabetesPredictor]: the two loaded models and [img_size].
    A model maps a batch to [float(prediction[0][0])]. *)
Record DiabetesPredictor : Type := {
  PIL : Imaging;
  lidah_model : tensor -> result float;
  kuku_model : tensor -> result float;
  img_size : nat * nat
}.

(** [DiabetesPredictor.__init__]; [load_model] is [tf.keras.models.load_model]. *)
Definition DiabetesPredictor_init (I : Imaging)
    (load_model : string -> result (tensor -> result float))
    (lidah_model_path kuku_model_path : string) : result DiabetesPredictor :=
  lm ← load_model lidah_model_path;
  km ← load_model kuku_model_path;
  Ok {| PIL := I; lidah_model := lm; kuku_model := km; img_size := (224, 224)%nat |}.

(** One channel value divided by [255.0]. *)
Definition normalize_channel (b : Byte.byte) : float :=
  div (of_int (Z.of_N (Byte.to_N b))) (of_int 255).

Definition preprocess_image (self : DiabetesPredictor) (image_bytes : bytes)
    : result tensor :=
  img ← Image_open (PIL self) image_bytes;
  img ← (if negb (String.eqb (mode (PIL self) img) "RGB")
         then convert (PIL self) img "RGB"
         else Ok img);
  img ← resize (PIL self) img (img_size self);
  arr ← np_array (PIL self) img;
  let img_array := map (map (map normalize_channel)) arr in
  Ok [img_array].

(** The interpretation of the sigmoid output of the tongue model
    (lines 72-85 of predictor.py). *)
Definition lidah_verdict (confidence_score : float) : SingleDetectionResult :=
  let is_diabetic := lt confidence_score half in
  let label := if is_diabetic then "prediabet" else "non_diabet" in
  let confidence := if is_diabetic then sub (of_int 1) confidence_score
                    else confidence_score in
  {| detection_type := LIDAH; is_diabetic := is_diabetic;
     confidence := confidence; label := label |}.

(** The interpretation of the sigmoid output of the nail model
    (lines 104-117 of predictor.py). *)
Definition kuku_verdict (confidence_score : float) : SingleDetectionResult :=
  let is_diabetic := ge confidence_score half in
  let label := if is_diabetic then "prediabet" else "non_diabet" in
  let confidence := if is_diabetic then confidence_score
                    else sub (of_int 1) confidence_score in
  {| detection_type := KUKU; is_diabetic := is_diabetic;
     confidence := confidence; label := label |}.

Definition predict_lidah (self : DiabetesPredictor) (image_bytes : bytes)
    : result SingleDetectionResult :=
  img_array ← preprocess_image self image_bytes;
  confidence_score ← lidah_model self img_array;
  Ok (lidah_verdict confidence_score).

Definition predict_kuku (self : DiabetesPredictor) (image_bytes : bytes)
    : result SingleDetectionResult :=
  img_array ← preprocess_image self image_bytes;
  confidence_score ← kuku_model self img_array;
  Ok (kuku_verdict confidence_score).

(** Truth value of an [Optional[bytes]]: [None] and [b''] are false. *)
Definition truthy_bytes (b : option bytes) : bool :=
  match b with
  | Some (_ :: _) => true
  | _ => false
  end.

Definition predict_both (self : DiabetesPredictor)
    (lidah_bytes kuku_bytes : option bytes)
    : result (option SingleDetectionResult * option SingleDetectionResult) :=
  lidah_result ← (if truthy_bytes lidah_bytes
                  then Some <$> predict_lidah self (default [] lidah_bytes)
                  else Ok None);
  kuku_result ← (if truthy_bytes kuku_bytes
                 then Some <$> predict_kuku self (default [] kuku_bytes)
                 else Ok None);
  Ok (lidah_result, kuku_result).

(* ================================================================= *)
(** ** The module [random]

    The generator state is threaded explicitly.  [random] is
    [Random.random()], a float in [[0.0, 1.0)]; [randbelow n] is
    [Random._randbelow(n)], an integer in [range(n)]. *)

Record RandomSource : Type := {
  rng : Type;
  random : rng -> float * rng;
  randbelow : nat -> rng -> nat * rng
}.

(** [random.uniform(a, b)] on two [int]s: [a + (b - a) * self.random()]. *)
Definition uniform (R : RandomSource) (a b : Z) (g : rng R) : float * rng R :=
  let '(u, g) := random R g in
  (add (of_int a) (mul (of_int (b - a)) u), g).

(** The contract of [random.random()]: a binary64 number in [0.0, 1.0). *)
Definition random_in_unit (R : RandomSource) : Prop :=
  forall g : rng R, in_unit_half_open (fst (random R g)).

(** The contract of [_randbelow(n)]: an element of [range(n)]. *)
Definition randbelow_in_range (R : RandomSource) : Prop :=
  forall (n : nat) (g : rng R), (0 < n)%nat -> (fst (randbelow R n g) < n)%nat.

Definition index_error : exn :=
  {| exn_type := IndexError; str := "list index out of range" |}.

Definition value_error : exn :=
  {| exn_type := ValueError;
     str := "Sample larger than population or is negative" |}.

Definition unmodelled : exn :=
  {| exn_type := Unmodelled; str := "random.sample: set-based selection" |}.

(** The pool loop of [random.sample]:
<<
    for i in range(k):
        j = randbelow(n - i)
        result[i] = pool[j]
        pool[j] = pool[n - i - 1]
>>
    [k] counts the iterations left and [i] the ones done. *)
Fixpoint sample_pool {A : Type} (R : RandomSource) (k i n : nat)
    (pool : list A) (g : rng R) : result (list A) * rng R :=
  match k with
  | O => (Ok [], g)
  | S k' =>
      let '(j, g) := randbelow R (n - i) g in
      match pool !! j, pool !! (n - i - 1)%nat with
      | Some x, Some y =>
          let '(rest, g) := sample_pool R k' (S i) n (<[j := y]> pool) g in
          (cons x <$> rest, g)
      | _, _ => (Raise index_error, g)
      end
  end.

(** [random.sample(population, k)].  CPython takes the pool loop when the
    population has at most 21 elements and [k <= 5]; beyond that it selects
    through a set with a rejection loop, which is left out: the program only
    samples 3 out of at most 15. *)
Definition sample {A : Type} (R : RandomSource) (population : list A) (k : nat)
    (g : rng R) : result (list A) * rng R :=
  let n := length population in
  if negb (k <=? n)%nat then (Raise value_error, g)
  else if (k <=? 5)%nat && (n <=? 21)%nat then sample_pool R k 0 n population g
  else (Raise unmodelled, g).

(* ================================================================= *)
(** ** app/utils.py *)

Definition LIDAH_RISK_FACTORS : gmap string (list string) :=
  {[ "diabet" := [
       "Tongue coating thickness abnormality";
       "Color changes in tongue surface";
       "Texture pattern irregularities";
       "Surface moisture level changes";
       "Papillae distribution abnormality";
       "Edge scalloping patterns detected" ] ]}.

Definition KUKU_RISK_FACTORS : gmap string (list string) :=
  {[ "prediabet" := [
       "Nail discoloration patterns";
       "Texture irregularities detected";
       "Surface changes observed";
       "Yellow nail syndrome indicators";
       "Nail bed color variations";
       "Onycholysis early signs";
       "Paronychia-like inflammation";
       "Brittle nail characteristics";
       "Growth pattern abnormalities" ] ]}.

(** The two candidate pools, as the dicts hold them. *)
Definition lidah_pool : list string :=
  default [] (LIDAH_RISK_FACTORS !! "diabet").
Definition kuku_pool : list string :=
  default [] (KUKU_RISK_FACTORS !! "prediabet").

(** [d[key]] on a [dict]. *)
Definition getitem {V : Type} (d : gmap string V) (key : string) : result V :=
  match d !! key with
  | Some v => Ok v
  | None => Raise {| exn_type := KeyError; str := "'" ++ key ++ "'" |}
  end.

Definition all_clear_factors : list string :=
  [ "No significant abnormalities detected";
    "Normal appearance observed";
    "Healthy indicators present" ].

Definition general_factors : list string :=
  [ "Possible early stage indicators";
    "Minor variations from baseline";
    "Requires further monitoring" ].

(** The list [factors] of [get_risk_factors] after the two [extend]s. *)
Definition candidate_factors (lidah_diabetic kuku_diabetic : bool)
    : result (list string) :=
  let factors : list string := [] in
  factors ← (if lidah_diabetic
             then (fun pool => (factors ++ pool)%list) <$> getitem LIDAH_RISK_FACTORS "diabet"
             else Ok factors);
  factors ← (if kuku_diabetic
             then (fun pool => (factors ++ pool)%list) <$> getitem KUKU_RISK_FACTORS "prediabet"
             else Ok factors);
  Ok factors.

(** Which arm of [get_risk_factors] a candidate list takes after the
    emptiness test. *)
Inductive selection : Type := Sampled | Padded | Kept.

Definition select_arm (factors : list string) : selection :=
  if (3 <? length factors)%nat then Sampled
  else if (length factors <? 3)%nat then Padded
  else Kept.

Definition get_risk_factors (R : RandomSource) (lidah_diabetic kuku_diabetic : bool)
    (g : rng R) : result (list string) * rng R :=
  match candidate_factors lidah_diabetic kuku_diabetic with
  | Raise e => (Raise e, g)
  | Ok [] => (Ok all_clear_factors, g)
  | Ok factors =>
      let '(factors, g) :=
        match select_arm factors with
        | Sampled => sample R factors 3 g
        | Padded =>
            (Ok (factors ++ take (3 - length factors) general_factors)%list, g)
        | Kept => (Ok factors, g)
        end in
      (take 3 <$> factors, g)
  end.

Definition calculate_risk_level (R : RandomSource)
    (lidah_diabetic kuku_diabetic : bool) (g : rng R)
    : (RiskLevel * float) * rng R :=
  if lidah_diabetic && kuku_diabetic then
    let '(p, g) := uniform R 75 95 g in ((TINGGI, p), g)
  else if lidah_diabetic || kuku_diabetic then
    let '(p, g) := uniform R 45 70 g in ((SEDANG, p), g)
  else
    let '(p, g) := uniform R 5 25 g in ((RENDAH, p), g).

(** The dict [recommendations]; a [RiskLevel] key hashes and compares as its
    string value. *)
Definition recommendations : gmap string string :=
  {[ RiskLevel_value TINGGI :=
       "High risk detected. We strongly recommend immediate consultation with a healthcare "
       ++ "professional for comprehensive diabetes screening and blood glucose testing. "
       ++ "Early intervention is crucial for better health outcomes.";
     RiskLevel_value SEDANG :=
       "Moderate risk detected. Please schedule a medical check-up within the next few weeks. "
       ++ "Consider monitoring your blood sugar levels and maintaining a healthy lifestyle with "
       ++ "balanced diet and regular exercise.";
     RiskLevel_value RENDAH :=
       "Low risk detected. Continue maintaining a healthy lifestyle with regular exercise, "
       ++ "balanced nutrition, and adequate sleep. Regular health check-ups are still recommended "
       ++ "for prevention and early detection." ]}.

Definition get_recommendation (risk_level : RiskLevel) : string :=
  default "Please consult with a healthcare professional."
          (recommendations !! RiskLevel_value risk_level).

(* ================================================================= *)
(** ** app/main.py *)

Inductive http (A : Type) : Type :=
  | Response (body : A)
  | HTTPException (status_code : nat) (detail : string).
Arguments Response {A} body.
Arguments HTTPException {A} status_code detail.

(** An uploaded file; [read] is [await file.read()]. *)
Record UploadFile : Type := { read : bytes }.

(** [x.is_diabetic] on a value that may be [None]. *)
Definition getattr_is_diabetic (x : option SingleDetectionResult) : result bool :=
  match x with
  | Some r => Ok (is_diabetic r)
  | None =>
      Raise {| exn_type := AttributeError;
               str := "'NoneType' object has no attribute 'is_diabetic'" |}
  end.

(** [x.is_diabetic if x else False]. *)
Definition is_diabetic_or_False (x : option SingleDetectionResult) : bool :=
  match x with
  | Some r => is_diabetic r
  | None => false
  end.

(** [except Exception as e: raise HTTPException(500, f"Prediction error: {str(e)}")]. *)
Definition prediction_error {A : Type} (e : exn) : http A :=
  HTTPException 500 ("Prediction error: " ++ str e).

(** The part shared by the four endpoints once the two flags are known:
    risk level, risk factors, recommendation and the response object. *)
Definition assemble (R : RandomSource) (lidah_diabetic kuku_diabetic : bool)
    (lidah_result kuku_result : option SingleDetectionResult) (g : rng R)
    : http DiabetesAnalysisResponse * rng R :=
  let '((risk_level, risk_percentage), g) :=
    calculate_risk_level R lidah_diabetic kuku_diabetic g in
  let '(risk_factors, g) := get_risk_factors R lidah_diabetic kuku_diabetic g in
  match risk_factors with
  | Raise e => (prediction_error e, g)
  | Ok risk_factors =>
      let recommendation := get_recommendation risk_level in
      (Response {| risk_level := risk_level;
                   risk_percentage := risk_percentage;
                   lidah_result := lidah_result;
                   kuku_result := kuku_result;
                   risk_factors_identified := risk_factors;
                   recommendation := recommendation |}, g)
  end.

Definition root : http HealthCheckResponse :=
  Response {| status := "healthy"; message := "Diabetes Detection API is running" |}.

Definition health_check (predictor : option DiabetesPredictor)
    : http HealthCheckResponse :=
  match predictor with
  | None => HTTPException 503 "Models not loaded"
  | Some _ =>
      Response {| status := "healthy"; message := "All models loaded and ready" |}
  end.

Definition predict_lidah_only (predictor : option DiabetesPredictor)
    (R : RandomSource) (lidah_image : UploadFile) (g : rng R)
    : http DiabetesAnalysisResponse * rng R :=
  match predictor with
  | None => (HTTPException 503 "Model not loaded", g)
  | Some predictor =>
      let lidah_bytes := read lidah_image in
      match predict_both predictor (Some lidah_bytes) None with
      | Raise e => (prediction_error e, g)
      | Ok (lidah_result, _) =>
          match getattr_is_diabetic lidah_result with
          | Raise e => (prediction_error e, g)
          | Ok lidah_diabetic =>
              assemble R lidah_diabetic false lidah_result None g
          end
      end
  end.

Definition predict_kuku_only (predictor : option DiabetesPredictor)
    (R : RandomSource) (kuku_image : UploadFile) (g : rng R)
    : http DiabetesAnalysisResponse * rng R :=
  match predictor with
  | None => (HTTPException 503 "Model not loaded", g)
  | Some predictor =>
      let kuku_bytes := read kuku_image in
      match predict_both predictor None (Some kuku_bytes) with
      | Raise e => (prediction_error e, g)
      | Ok (_, kuku_result) =>
          match getattr_is_diabetic kuku_result with
          | Raise e => (prediction_error e, g)
          | Ok kuku_diabetic =>
              assemble R false kuku_diabetic None kuku_result g
          end
      end
  end.

(** The endpoint [/predict/both] ([main.predict_both]). *)
Definition predict_both_endpoint (predictor : option DiabetesPredictor)
    (R : RandomSource) (lidah_image kuku_image : UploadFile) (g : rng R)
    : http DiabetesAnalysisResponse * rng R :=
  match predictor with
  | None => (HTTPException 503 "Model not loaded", g)
  | Some predictor =>
      let lidah_bytes := read lidah_image in
      let kuku_bytes := read kuku_image in
      match predict_both predictor (Some lidah_bytes) (Some kuku_bytes) with
      | Raise e => (prediction_error e, g)
      | Ok (lidah_result, kuku_result) =>
          match getattr_is_diabetic lidah_result with
          | Raise e => (prediction_error e, g)
          | Ok lidah_diabetic =>
              match getattr_is_diabetic kuku_result with
              | Raise e => (prediction_error e, g)
              | Ok kuku_diabetic =>
                  assemble R lidah_diabetic kuku_diabetic lidah_result kuku_result g
              end
          end
      end
  end.

Definition predict_flexible (predictor : option DiabetesPredictor)
    (R : RandomSource) (lidah_image kuku_image : option UploadFile) (g : rng R)
    : http DiabetesAnalysisResponse * rng R :=
  match predictor with
  | None => (HTTPException 503 "Model not loaded", g)
  | Some predictor =>
      if negb (bool_decide (is_Some lidah_image))
         && negb (bool_decide (is_Some kuku_image))
      then (HTTPException 400 "At least one image (lidah or kuku) must be provided", g)
      else
        let lidah_bytes := read <$> lidah_image in
        let kuku_bytes := read <$> kuku_image in
        match predict_both predictor lidah_bytes kuku_bytes with
        | Raise e => (prediction_error e, g)
        | Ok (lidah_result, kuku_result) =>
            assemble R (is_diabetic_or_False lidah_result)
                       (is_diabetic_or_False kuku_result)
                       lidah_result kuku_result g
        end
  end.

(** [startup_event]: build the global [predictor]; a failure is re-raised. *)
Definition startup_event (I : Imaging)
    (load_model : string -> result (tensor -> result float))
    : result (option DiabetesPredictor) :=
  Some <$> DiabetesPredictor_init I load_model
             "models/lidah_model.h5" "models/kuku_model.h5".

(* ================================================================= *)
(** ** Test doubles

    Concrete collaborators on which the statements below are exercised. *)

(** A counter-driven random source.  The n-th [random()] is [k / 2^53] for a
    scrambled 53-bit [k], as in CPython; the n-th [randbelow(m)] is a
    residue modulo [m]. *)
Definition counter_source : RandomSource :=
  {| rng := nat;
     random := fun g =>
       (binary_normalize prec emax
          ((Z.of_nat g * 6364136223846793005 + 1442695040888963407) mod 2 ^ 53)%Z
          (-53) false, S g);
     randbelow := fun n g => ((g * 7 + 3) mod n, S g) |}.

(** An imaging library that rejects the empty byte string, as [Image.open]
    does, and reads any other one as a single row of one-channel pixels. *)
Definition stub_imaging : Imaging :=
  {| image := pixels;
     Image_open := fun b =>
       match b with
       | [] => Raise {| exn_type := ImageError; str := "cannot identify image file" |}
       | _ => Ok [map (fun c => [c]) b]
       end;
     mode := fun _ => "L";
     convert := fun img _ => Ok (map (map (fun px => px ++ px ++ px)%list) img);
     resize := fun img _ => Ok img;
     np_array := fun img => Ok img |}.

(** A predictor whose two models answer with fixed scores. *)
Definition stub_predictor (lidah_score kuku_score : float) : DiabetesPredictor :=
  {| PIL := stub_imaging;
     lidah_model := fun _ => Ok lidah_score;
     kuku_model := fun _ => Ok kuku_score;
     img_size := (224, 224)%nat |}.

(** A predictor whose tongue model fails on every input. *)
Definition broken_predictor : DiabetesPredictor :=
  {| PIL := stub_imaging;
     lidah_model := fun _ => Raise {| exn_type := ModelError; str := "inference failed" |};
     kuku_model := fun _ => Ok half;
     img_size := (224, 224)%nat |}.

(** The float nearest to [0.2] and the one nearest to [0.9]. *)
Definition score_0_2 : float := div (of_int 2) (of_int 10).
Definition score_0_9 : float := div (of_int 9) (of_int 10).

(* ================================================================= *)
(** * Properties *)

(** ** Rounding to nearest even in binary64

    The facts about [spec_float] that the program's arithmetic needs:
    what a right shift does to a mantissa, the shape of a rounded result,
    and that rounding never crosses a representable bound. *)

Module Rounding.
Local Open Scope Z_scope.

Lemma digits2_pos_bounds (p : positive) :
  2 ^ (Zpos (digits2_pos p) - 1) <= Zpos p < 2 ^ Zpos (digits2_pos p).
Proof.
  induction p as [p IH | p IH |]; cbn [digits2_pos].
  - rewrite Pos2Z.inj_succ, Z.pow_succ_r by lia.
    replace (Z.succ (Zpos (digits2_pos p)) - 1) with (Z.succ (Zpos (digits2_pos p) - 1)) by lia.
    rewrite Z.pow_succ_r by lia. lia.
  - rewrite Pos2Z.inj_succ, Z.pow_succ_r by lia.
    replace (Z.succ (Zpos (digits2_pos p)) - 1) with (Z.succ (Zpos (digits2_pos p) - 1)) by lia.
    rewrite Z.pow_succ_r by lia. lia.
  - cbn. lia.
Qed.

Lemma digits2_pos_unique (p : positive) (d : Z) :
  2 ^ (d - 1) <= Zpos p < 2 ^ d -> Zpos (digits2_pos p) = d.
Proof.
  intros [Hlo Hhi]. pose proof (digits2_pos_bounds p) as [Blo Bhi].
  set (c := Zpos (digits2_pos p)) in *.
  assert (Hc : 0 < c) by (subst c; lia).
  destruct (Z.lt_trichotomy c d) as [Hlt | [Heq | Hgt]]; [exfalso | exact Heq | exfalso].
  - assert (2 ^ c <= 2 ^ (d - 1)) by (apply Z.pow_le_mono_r; lia). lia.
  - destruct (Z.le_gt_cases d 0) as [Hd | Hd].
    + assert (2 ^ d <= 2 ^ 0) by (apply Z.pow_le_mono_r_iff; lia). change (2 ^ 0) with 1 in *. lia.
    + assert (2 ^ d <= 2 ^ (c - 1)) by (apply Z.pow_le_mono_r; lia). lia.
Qed.

Lemma shifted_trans a b x y z :
  0 <= a -> 0 <= b -> shifted a x y -> shifted b y z -> shifted (a + b) x z.
Proof.
  intros Ha Hb [E1 X1] [E2 X2].
  assert (Pa : 0 < 2 ^ a) by (apply Z.pow_pos_nonneg; lia).
  assert (Pb : 0 < 2 ^ b) by (apply Z.pow_pos_nonneg; lia).
  split.
  - rewrite E2, E1, Z.pow_add_r, Z.div_div by lia. reflexivity.
  - intros Hx Hmod. rewrite Z.pow_add_r in Hmod by lia.
    pose proof (Z.div_mod (shr_m x) (2 ^ a * 2 ^ b) ltac:(lia)) as Hq.
    rewrite Hmod, Z.add_0_r in Hq.
    set (q := shr_m x / (2 ^ a * 2 ^ b)) in *.
    assert (Hma : shr_m x mod 2 ^ a = 0).
    { rewrite Hq. replace (2 ^ a * 2 ^ b * q) with (2 ^ b * q * 2 ^ a) by lia.
      apply Z.mod_mul. lia. }
    apply X2; [apply X1; assumption |].
    rewrite E1, Hq. replace (2 ^ a * 2 ^ b * q) with (2 ^ b * q * 2 ^ a) by lia.
    rewrite Z.div_mul by lia. rewrite Z.mul_comm. apply Z.mod_mul. lia.
Qed.

Lemma shr_1_shifted mrs : 0 <= shr_m mrs -> shifted 1 mrs (shr_1 mrs).
Proof.
  destruct mrs as [m r s]; unfold shifted; cbn [shr_m]. intros Hm.
  rewrite Z.pow_1_r.
  destruct m as [| p | p]; [ | | lia].
  - cbn. split; [reflexivity|]. unfold exact_rec; cbn. intros H _. rewrite H. reflexivity.
  - destruct p as [p | p |]; unfold exact_rec; cbn [shr_1 shr_m shr_r shr_s].
    + split. { rewrite Pos2Z.inj_xI. apply Z.div_unique with 1; lia. }
      intros _ H. rewrite Pos2Z.inj_xI in H. exfalso.
      rewrite Z.add_comm, Z.mul_comm, Z.mod_add in H by lia. discriminate H.
    + split. { rewrite Pos2Z.inj_xO. apply Z.div_unique with 0; lia. }
      intros H _. cbn. exact H.
    + split; [reflexivity|]. intros _ H. discriminate H.
Qed.

Lemma shifted_nonneg k x y : 0 <= k -> 0 <= shr_m x -> shifted k x y -> 0 <= shr_m y.
Proof.
  intros Hk Hx [E _]. rewrite E. apply Z.div_pos; [assumption | apply Z.pow_pos_nonneg; lia].
Qed.

Lemma iter_shr_1_shifted (n : positive) : forall mrs,
  0 <= shr_m mrs -> shifted (Zpos n) mrs (SpecFloat.iter_pos shr_1 n mrs).
Proof.
  induction n as [n IH | n IH |]; intros mrs Hm; cbn [iter_pos].
  - pose proof (shr_1_shifted mrs Hm) as S1.
    pose proof (shifted_nonneg 1 _ _ ltac:(lia) Hm S1) as H1.
    pose proof (IH _ H1) as S2.
    pose proof (shifted_nonneg (Zpos n) _ _ ltac:(lia) H1 S2) as H2.
    pose proof (IH _ H2) as S3.
    replace (Zpos n~1) with (1 + Zpos n + Zpos n) by lia.
    eapply shifted_trans; [lia | lia | | exact S3].
    eapply shifted_trans; [lia | lia | exact S1 | exact S2].
  - pose proof (IH _ Hm) as S1.
    pose proof (shifted_nonneg (Zpos n) _ _ ltac:(lia) Hm S1) as H1.
    pose proof (IH _ H1) as S2.
    replace (Zpos n~0) with (Zpos n + Zpos n) by lia.
    eapply shifted_trans; [lia | lia | exact S1 | exact S2].
  - apply shr_1_shifted. exact Hm.
Qed.

Lemma round_nearest_even_range m l :
  m <= round_nearest_even m l <= m + 1.
Proof.
  destruct l as [| [ | | ]]; cbn; try lia. destruct (Z.even m); lia.
Qed.

Lemma loc_of_exact_rec mrs : exact_rec mrs = true -> loc_of_shr_record mrs = loc_Exact.
Proof. destruct mrs as [m [|] [|]]; cbn; intros H; try discriminate H; reflexivity. Qed.

Lemma fexp64 x : fexp prec emax x = Z.max (x - 53) (-1074).
Proof. reflexivity. Qed.

Lemma pow2_pos k : 0 <= k -> 0 < 2 ^ k.
Proof. intros. apply Z.pow_pos_nonneg; lia. Qed.

Lemma pow2_split a b : 0 <= a -> 0 <= b -> 2 ^ (a + b) = 2 ^ a * 2 ^ b.
Proof. intros. apply Z.pow_add_r; assumption. Qed.

Lemma pow2_le a b : a <= b -> 0 <= a -> 2 ^ a <= 2 ^ b.
Proof. intros. apply Z.pow_le_mono_r; lia. Qed.

Lemma round_aux_exact_loc (M : positive) (e : Z) :
  let f := fexp prec emax (Zpos (digits2_pos M) + e) in
  e <= f -> f <= 970 ->
  exists k,
    Zpos M / 2 ^ (f - e) <= k <= Zpos M / 2 ^ (f - e) + 1 /\
    (Zpos M mod 2 ^ (f - e) = 0 -> k = Zpos M / 2 ^ (f - e)) /\
    k <= 2 ^ 53 /\ (f = -1074 \/ 2 ^ 52 <= k) /\
    binary_round_aux prec emax false (Zpos M) e loc_Exact = encode k f.
Proof.
  intros f Hef Hf.
  pose proof (digits2_pos_bounds M) as [Dlo Dhi].
  set (d := Zpos (digits2_pos M)) in *.
  assert (Hd : 0 < d) by (subst d; lia).
  assert (Ef : f = Z.max (d + e - 53) (-1074)) by (subst f; apply fexp64).
  unfold binary_round_aux, shr_fexp. cbn [Zdigits2 shr_record_of_loc]. fold d. fold f.
  unfold shr at 1. destruct (f - e) as [| p | p] eqn:En; [ | | lia].
  - (* the mantissa already sits on its grid *)
    cbn [shr_m loc_of_shr_record round_nearest_even Zdigits2 shr_record_of_loc].
    fold d. fold f. rewrite En. cbn [shr shr_m].
    exists (Zpos M). rewrite Z.pow_0_r, Z.div_1_r.
    assert (Hd53 : d <= 53) by lia.
    assert (HM : Zpos M < 2 ^ 53).
    { pose proof (pow2_le d 53 Hd53 ltac:(lia)). lia. }
    repeat split; try lia.
    + destruct (Z.eq_dec f (-1074)) as [E | NE]; [left; exact E | right].
      assert (d = 53) by lia. subst d. rewrite H in Dlo. exact Dlo.
    + replace (e <=? emax - prec) with true by (symmetry; apply Z.leb_le; unfold emax, prec; lia).
      unfold encode. replace (Zpos M =? 0) with false by reflexivity.
      replace (Zpos M =? 2 ^ 53) with false by (symmetry; apply Z.eqb_neq; lia).
      replace f with e by lia. reflexivity.
  - (* p low bits are shifted out and the mantissa is rounded *)
    set (r0 := {| shr_m := Zpos M; shr_r := false; shr_s := false |}).
    pose proof (iter_shr_1_shifted p r0 ltac:(cbn; lia)) as [Em Ex].
    set (mrs := SpecFloat.iter_pos shr_1 p r0) in *.
    change (shr_m r0) with (Zpos M) in Em, Ex.
    set (k := round_nearest_even (shr_m mrs) (loc_of_shr_record mrs)).
    pose proof (round_nearest_even_range (shr_m mrs) (loc_of_shr_record mrs)) as Hk.
    fold k in Hk. rewrite Em in Hk.
    assert (Eef : e + Zpos p = f) by lia. rewrite Eef.
    assert (Pp : 0 < 2 ^ Zpos p) by (apply pow2_pos; lia).
    assert (Hm1 : Zpos M / 2 ^ Zpos p < 2 ^ 53).
    { apply Z.div_lt_upper_bound; [exact Pp |].
      destruct (Z.le_gt_cases (Zpos p) d) as [Hpd | Hpd].
      - assert (d - Zpos p <= 53) by lia.
        pose proof (pow2_le (d - Zpos p) 53 H ltac:(lia)).
        replace d with (Zpos p + (d - Zpos p)) in Dhi by lia.
        rewrite pow2_split in Dhi by lia. nia.
      - pose proof (pow2_le d (Zpos p) ltac:(lia) ltac:(lia)).
        assert (1 <= 2 ^ 53) by (apply (pow2_le 0 53); lia). nia. }
    assert (Hnorm : f = -1074 \/ 2 ^ 52 <= Zpos M / 2 ^ Zpos p).
    { destruct (Z.eq_dec f (-1074)) as [E | NE]; [left; exact E | right].
      assert (Zpos p = d - 53) by lia.
      apply Z.div_le_lower_bound; [exact Pp |].
      replace (d - 1) with (Zpos p + 52) in Dlo by lia.
      rewrite pow2_split in Dlo by lia. lia. }
    assert (Hm0 : 0 <= Zpos M / 2 ^ Zpos p) by (apply Z.div_pos; lia).
    exists k. split; [exact Hk |]. split.
    { intros Hmod. subst k. rewrite (loc_of_exact_rec mrs (Ex eq_refl Hmod)).
      cbn [round_nearest_even]. exact Em. }
    split; [lia |]. split; [lia |].
    unfold encode. destruct (Z.eqb_spec k 0) as [K0 | K0].
    + rewrite K0. cbn [Zdigits2 shr_record_of_loc]. rewrite Z.add_0_l.
      unfold shr. destruct (fexp prec emax f - f) as [| q | q] eqn:Eq; try reflexivity.
      rewrite fexp64 in Eq. lia.
    + destruct k as [| kp | kp]; [lia | | lia].
      cbn [Zdigits2 shr_record_of_loc].
      pose proof (digits2_pos_bounds kp) as [Klo Khi].
      set (d' := Zpos (digits2_pos kp)) in *.
      destruct (Z.eqb_spec (Zpos kp) (2 ^ 53)) as [K53 | K53].
      * assert (Ed' : d' = 54) by (subst d'; apply digits2_pos_unique; rewrite K53; cbn; lia).
        rewrite Ed', fexp64.
        replace (Z.max (54 + f - 53) (-1074) - f) with 1 by lia.
        injection K53 as ->. cbn [shr SpecFloat.iter_pos shr_1 shr_m].
        replace (f + 1 <=? emax - prec) with true
          by (symmetry; apply Z.leb_le; unfold emax, prec; lia).
        reflexivity.
      * assert (Ed' : d' <= 53).
        { destruct (Z.le_gt_cases d' 53) as [L | G]; [exact L | exfalso].
          pose proof (pow2_le 53 (d' - 1) ltac:(lia) ltac:(lia)). lia. }
        unfold shr. rewrite fexp64.
        destruct (Z.max (d' + f - 53) (-1074) - f) as [| q | q] eqn:Eq; [ | lia | ];
          cbn [shr_m];
          replace (f <=? emax - prec) with true
            by (symmetry; apply Z.leb_le; unfold emax, prec; lia);
          reflexivity.
Qed.

Lemma bounded_inv m e :
  bounded prec emax m e = true ->
  -1074 <= e <= 971 /\ Zpos m < 2 ^ 53 /\ (e = -1074 \/ 2 ^ 52 <= Zpos m).
Proof.
  unfold bounded, canonical_mantissa. rewrite fexp64.
  intros H. apply andb_true_iff in H as [Hc He].
  apply Z.eqb_eq in Hc. apply Z.leb_le in He. unfold emax, prec in He.
  pose proof (digits2_pos_bounds m) as [Dlo Dhi].
  set (d := Zpos (digits2_pos m)) in *.
  assert (Hd : 0 < d) by (subst d; lia).
  split; [lia |]. split.
  - pose proof (pow2_le d 53 ltac:(lia) ltac:(lia)). lia.
  - destruct (Z.eq_dec e (-1074)) as [E | NE]; [left; exact E | right].
    assert (d = 53) by lia. replace (d - 1) with 52 in Dlo by lia. exact Dlo.
Qed.

Lemma bounded_intro m e :
  -1074 <= e <= 971 -> Zpos m < 2 ^ 53 -> (e = -1074 \/ 2 ^ 52 <= Zpos m) ->
  bounded prec emax m e = true.
Proof.
  intros He Hm Hn. unfold bounded, canonical_mantissa. rewrite fexp64.
  pose proof (digits2_pos_bounds m) as [Dlo Dhi].
  set (d := Zpos (digits2_pos m)) in *.
  assert (Hd : 0 < d) by (subst d; lia).
  assert (Hd53 : d <= 53).
  { destruct (Z.le_gt_cases d 53) as [L | G]; [exact L | exfalso].
    pose proof (pow2_le 53 (d - 1) ltac:(lia) ltac:(lia)). lia. }
  apply andb_true_iff. split; [apply Z.eqb_eq | apply Z.leb_le; unfold emax, prec; lia].
  destruct Hn as [E | Hn]; [lia |].
  assert (d = 53); [| lia].
  destruct (Z.le_gt_cases 53 d) as [L | G]; [lia | exfalso].
  pose proof (pow2_le d 52 ltac:(lia) ltac:(lia)). lia.
Qed.

Lemma encode_good k f :
  0 <= k <= 2 ^ 53 -> -1074 <= f <= 970 -> (f = -1074 \/ 2 ^ 52 <= k) ->
  good (encode k f) /\ fixed (encode k f) = k * 2 ^ (f + scale).
Proof.
  intros Hk Hf Hn. unfold encode, scale.
  destruct (Z.eqb_spec k 0) as [K0 | K0].
  { subst k. split; [split; reflexivity | reflexivity]. }
  destruct (Z.eqb_spec k (2 ^ 53)) as [K53 | K53].
  { subst k. split; [split; [| reflexivity] |].
    - cbn [valid_binary]. apply bounded_intro; [lia | reflexivity | right; reflexivity].
    - cbn [fixed cond_Zopp]. unfold scale.
      replace (f + 1 + 2148) with (1 + (f + 2148)) by lia.
      rewrite pow2_split by lia. change (2 ^ 1) with 2.
      change (Zpos (2 ^ 52)) with (2 ^ 52). change (2 ^ 53) with (2 ^ 52 * 2). lia. }
  assert (Ek : Zpos (Z.to_pos k) = k) by (apply Z2Pos.id; lia).
  split; [split; [| reflexivity] |].
  - cbn [valid_binary]. apply bounded_intro; rewrite ?Ek; lia.
  - cbn [fixed cond_Zopp]. rewrite Ek. reflexivity.
Qed.

Lemma compare_canonical m1 e1 m2 e2 :
  bounded prec emax m1 e1 = true -> bounded prec emax m2 e2 = true ->
  match e1 ?= e2 with
  | Lt => Lt
  | Gt => Gt
  | Eq => Pos.compare_cont Eq m1 m2
  end = (Zpos m1 * 2 ^ (e1 + scale) ?= Zpos m2 * 2 ^ (e2 + scale)).
Proof.
  intros B1 B2. unfold scale.
  apply bounded_inv in B1 as (E1 & M1 & N1). apply bounded_inv in B2 as (E2 & M2 & N2).
  destruct (Z.compare_spec e1 e2) as [E | L | G].
  - subst e2. pose proof (pow2_pos (e1 + 2148) ltac:(lia)) as P.
    change (Pos.compare_cont Eq m1 m2) with (Zpos m1 ?= Zpos m2).
    apply Zmult_compare_compat_r. lia.
  - symmetry. apply Z.compare_lt_iff.
    replace (e2 + 2148) with ((e2 - e1) + (e1 + 2148)) by lia.
    rewrite (pow2_split (e2 - e1) (e1 + 2148)) by lia.
    pose proof (pow2_pos (e1 + 2148) ltac:(lia)) as P.
    pose proof (pow2_le 1 (e2 - e1) ltac:(lia) ltac:(lia)) as Q. change (2 ^ 1) with 2 in Q.
    assert (2 ^ 52 <= Zpos m2) by lia.
    change (2 ^ 53) with (2 ^ 52 * 2) in M1.
    assert (Zpos m1 < Zpos m2 * 2 ^ (e2 - e1)) by nia. nia.
  - symmetry. apply Z.compare_gt_iff.
    replace (e1 + 2148) with ((e1 - e2) + (e2 + 2148)) by lia.
    rewrite (pow2_split (e1 - e2) (e2 + 2148)) by lia.
    pose proof (pow2_pos (e2 + 2148) ltac:(lia)) as P.
    pose proof (pow2_le 1 (e1 - e2) ltac:(lia) ltac:(lia)) as Q. change (2 ^ 1) with 2 in Q.
    assert (2 ^ 52 <= Zpos m1) by lia.
    change (2 ^ 53) with (2 ^ 52 * 2) in M2.
    assert (Zpos m2 < Zpos m1 * 2 ^ (e1 - e2)) by nia. nia.
Qed.

Lemma fixed_nonneg x : good x -> 0 <= fixed x.
Proof.
  intros [Hv Hn]. destruct x as [s | s | | s m e]; cbn in *; try lia.
  destruct s; [discriminate Hn |]. cbn.
  apply bounded_inv in Hv as (E & _ & _).
  pose proof (pow2_pos (e + scale) ltac:(unfold scale; lia)). lia.
Qed.

Lemma SFcompare_fixed x y :
  good x -> good y -> SFcompare x y = Some (fixed x ?= fixed y).
Proof.
  intros [Vx Nx] [Vy Ny].
  destruct x as [sx | sx | | sx mx ex]; try discriminate Nx;
  destruct y as [sy | sy | | sy my ey]; try discriminate Ny; cbn in Vx, Vy, Nx, Ny.
  - reflexivity.
  - destruct sy; [discriminate Ny |]. cbn [SFcompare fixed cond_Zopp].
    apply bounded_inv in Vy as (E & _ & _).
    pose proof (pow2_pos (ey + scale) ltac:(unfold scale; lia)).
    f_equal. symmetry. apply Z.compare_lt_iff. lia.
  - destruct sx; [discriminate Nx |]. cbn [SFcompare fixed cond_Zopp].
    apply bounded_inv in Vx as (E & _ & _).
    pose proof (pow2_pos (ex + scale) ltac:(unfold scale; lia)).
    f_equal. symmetry. apply Z.compare_gt_iff. lia.
  - destruct sx; [discriminate Nx |]. destruct sy; [discriminate Ny |].
    cbn [SFcompare fixed cond_Zopp]. f_equal. apply compare_canonical; assumption.
Qed.

Lemma SFleb_fixed x y : good x -> good y -> SFleb x y = (fixed x <=? fixed y).
Proof.
  intros Gx Gy. unfold SFleb. rewrite (SFcompare_fixed x y Gx Gy).
  unfold Z.leb. destruct (fixed x ?= fixed y); reflexivity.
Qed.

Lemma SFltb_fixed x y : good x -> good y -> SFltb x y = (fixed x <? fixed y).
Proof.
  intros Gx Gy. unfold SFltb. rewrite (SFcompare_fixed x y Gx Gy).
  unfold Z.ltb. destruct (fixed x ?= fixed y); reflexivity.
Qed.

Lemma grid_lower M P E q rm k l :
  0 < P -> 0 < E -> M = P * q + rm -> 0 <= rm < P -> q <= k ->
  l * (P * E) <= M * E -> l * (P * E) <= k * (P * E).
Proof.
  intros HP HE HM Hrm Hk H.
  assert (H1 : l * P <= M).
  { apply (Z.mul_le_mono_pos_r _ _ E HE). lia. }
  assert (H2 : l <= q) by nia.
  apply Z.mul_le_mono_nonneg_r; [nia | lia].
Qed.

Lemma grid_upper M P E q rm k h :
  0 < P -> 0 < E -> M = P * q + rm -> 0 <= rm < P ->
  k <= q + 1 -> (rm = 0 -> k = q) ->
  M * E <= h * (P * E) -> k * (P * E) <= h * (P * E).
Proof.
  intros HP HE HM Hrm Hk Hex H.
  assert (H1 : M <= h * P).
  { apply (Z.mul_le_mono_pos_r _ _ E HE). lia. }
  assert (H2 : k <= h).
  { destruct (Z.eq_dec rm 0) as [R0 | R0].
    - rewrite (Hex R0). nia.
    - assert (q < h) by nia. lia. }
  apply Z.mul_le_mono_nonneg_r; [nia | lia].
Qed.

Lemma grid_below m T k Y B :
  0 < T -> m < T * 2 -> T <= k -> 2 <= Y -> 0 < B -> m * B <= k * (Y * B).
Proof.
  intros HT Hm Hk HY HB.
  assert (H1 : m <= k * Y) by nia.
  rewrite Z.mul_assoc. apply Z.mul_le_mono_nonneg_r; lia.
Qed.

Lemma good_pos_inv x :
  good x -> 0 < fixed x ->
  exists m e, x = S754_finite false m e /\ bounded prec emax m e = true.
Proof.
  intros [Hv Hn] Hp. destruct x as [s | s | | s m e]; cbn in Hp; try lia.
  destruct s; [discriminate Hn |]. exists m, e. split; [reflexivity | exact Hv].
Qed.

Lemma round_aux_between (M : positive) (e : Z) (lo hi : float) :
  - scale <= e -> e <= fexp prec emax (Zpos (digits2_pos M) + e) ->
  good lo -> good hi -> fixed hi < 2 ^ (1023 + scale) ->
  fixed lo <= Zpos M * 2 ^ (e + scale) <= fixed hi ->
  good (binary_round_aux prec emax false (Zpos M) e loc_Exact) /\
  fixed lo <= fixed (binary_round_aux prec emax false (Zpos M) e loc_Exact) <= fixed hi.
Proof.
  intros He Hef Glo Ghi Hov [HloV HVhi].
  pose proof (digits2_pos_bounds M) as [Dlo Dhi].
  set (d := Zpos (digits2_pos M)) in *.
  set (f := fexp prec emax (d + e)) in *.
  assert (Hd : 0 < d) by (subst d; lia).
  assert (Ef : f = Z.max (d + e - 53) (-1074)) by (subst f; apply fexp64).
  unfold scale in *.
  set (E := 2 ^ (e + 2148)) in *.
  assert (PE : 0 < E) by (subst E; apply pow2_pos; lia).
  (* the upper bound is a positive canonical float *)
  destruct (good_pos_inv hi Ghi ltac:(nia)) as (mh & eh & -> & Bh).
  cbn [fixed cond_Zopp] in HVhi, Hov |- *. unfold scale in *.
  apply bounded_inv in Bh as (Eh & Mh & Nh).
  (* its exponent is at least the grid exponent of the rounded value *)
  assert (Hfe : d + e - 53 <= eh).
  { assert (L1 : 2 ^ (d - 1 + e + 2148) <= Zpos M * E).
    { subst E. replace (d - 1 + e + 2148) with ((d - 1) + (e + 2148)) by lia.
      rewrite (pow2_split (d - 1) (e + 2148)) by lia. pose proof (pow2_pos (e + 2148) ltac:(lia)). nia. }
    assert (L2 : Zpos mh * 2 ^ (eh + 2148) < 2 ^ (53 + eh + 2148)).
    { replace (53 + eh + 2148) with (53 + (eh + 2148)) by lia.
      rewrite (pow2_split 53 (eh + 2148)) by lia. pose proof (pow2_pos (eh + 2148) ltac:(lia)). nia. }
    assert (L3 : 2 ^ (d - 1 + e + 2148) < 2 ^ (53 + eh + 2148)) by lia.
    apply Z.pow_lt_mono_r_iff in L3; lia. }
  assert (Hfh : f <= eh) by lia.
  assert (Heh : eh <= 970).
  { destruct (Z.le_gt_cases eh 970) as [L | G]; [exact L | exfalso].
    assert (eh = 971) by lia. subst eh.
    destruct Nh as [N | N]; [lia |].
    replace (1023 + 2148) with (52 + (971 + 2148)) in Hov by lia.
    rewrite (pow2_split 52 (971 + 2148)) in Hov by lia.
    pose proof (pow2_pos (971 + 2148) ltac:(lia)). nia. }
  destruct (round_aux_exact_loc M e Hef ltac:(fold d; fold f; lia))
    as (k & Hk & Hex & Hk53 & Hn & Er).
  fold d in Hk, Hex, Hn, Er. fold f in Hk, Hex, Hn, Er. rewrite Er.
  set (n := f - e) in *.
  assert (Hn0 : 0 <= n) by (subst n; lia).
  assert (Pn : 0 < 2 ^ n) by (apply pow2_pos; lia).
  pose proof (Z.div_mod (Zpos M) (2 ^ n) ltac:(lia)) as DM.
  pose proof (Z.mod_pos_bound (Zpos M) (2 ^ n) Pn) as RM.
  set (q := Zpos M / 2 ^ n) in *. set (rm := Zpos M mod 2 ^ n) in *.
  assert (Hq0 : 0 <= q) by (subst q; apply Z.div_pos; lia).
  destruct (encode_good k f ltac:(lia) ltac:(lia) Hn) as [Gr Fr].
  split; [exact Gr |]. rewrite Fr. unfold scale.
  assert (EG : 2 ^ (f + 2148) = 2 ^ n * E).
  { subst E n. rewrite <- pow2_split by lia. f_equal. lia. }
  rewrite EG. split.
  - (* lower bound *)
    destruct (Z.le_gt_cases (fixed lo) 0) as [L0 | L0].
    { apply Z.le_trans with 0; [exact L0 |].
      apply Z.mul_nonneg_nonneg; [lia |]. apply Z.mul_nonneg_nonneg; lia. }
    destruct (good_pos_inv lo Glo L0) as (ml & el & -> & Bl).
    cbn [fixed cond_Zopp] in HloV |- *. unfold scale in *.
    apply bounded_inv in Bl as (El & Ml & Nl).
    destruct (Z.le_gt_cases f el) as [Lf | Lf].
    + assert (EL : 2 ^ (el + 2148) = 2 ^ (el - f) * (2 ^ n * E)).
      { rewrite <- EG, <- pow2_split by lia. f_equal. lia. }
      rewrite EL in HloV |- *. rewrite (Z.mul_assoc (Zpos ml)) in HloV |- *.
      apply (grid_lower (Zpos M) (2 ^ n) E q rm); try assumption. lia.
    + destruct Hn as [Hn | Hn]; [lia |].
      assert (EL : 2 ^ (f + 2148) = 2 ^ (f - el) * 2 ^ (el + 2148)).
      { rewrite <- pow2_split by lia. f_equal. lia. }
      rewrite <- EG, EL.
      pose proof (pow2_pos (el + 2148) ltac:(lia)) as Pl.
      pose proof (pow2_le 1 (f - el) ltac:(lia) ltac:(lia)) as Q. change (2 ^ 1) with 2 in Q.
      apply (grid_below _ (2 ^ 52)); try assumption; lia.
  - (* upper bound *)
    assert (EH : 2 ^ (eh + 2148) = 2 ^ (eh - f) * (2 ^ n * E)).
    { rewrite <- EG, <- pow2_split by lia. f_equal. lia. }
    rewrite EH in HVhi |- *. rewrite (Z.mul_assoc (Zpos mh)) in HVhi |- *.
    apply (grid_upper (Zpos M) (2 ^ n) E q rm); try assumption; lia.
Qed.

(** *** Alignment of mantissas *)

Lemma pos_iter_xO (m d : positive) : Zpos (Pos.iter xO m d) = Zpos m * 2 ^ Zpos d.
Proof.
  induction d as [| d IH] using Pos.peano_ind.
  - cbn. lia.
  - rewrite Pos.iter_succ, Pos2Z.inj_xO, IH, Pos2Z.inj_succ, Z.pow_succ_r by lia. lia.
Qed.

Lemma shl_align_down mx ex ez :
  ez <= ex ->
  snd (shl_align mx ex ez) = ez /\
  Zpos (fst (shl_align mx ex ez)) = Zpos mx * 2 ^ (ex - ez).
Proof.
  intros H. unfold shl_align. destruct (ez - ex) as [| p | p] eqn:E; cbn [fst snd].
  - replace (ex - ez) with 0 by lia. split; lia.
  - lia.
  - rewrite pos_iter_xO. replace (ex - ez) with (Zpos p) by lia. split; reflexivity.
Qed.

Lemma shl_align_up mx ex ez : ex <= ez -> shl_align mx ex ez = (mx, ex).
Proof.
  intros H. unfold shl_align. destruct (ez - ex) as [| p | p] eqn:E; try reflexivity. lia.
Qed.

Lemma digits2_pos_shift (m m' : positive) (k : Z) :
  0 <= k -> Zpos m' = Zpos m * 2 ^ k ->
  Zpos (digits2_pos m') = Zpos (digits2_pos m) + k.
Proof.
  intros Hk E. pose proof (digits2_pos_bounds m) as [Dlo Dhi].
  apply digits2_pos_unique. rewrite E.
  pose proof (pow2_pos k Hk) as P.
  replace (Zpos (digits2_pos m) + k - 1) with ((Zpos (digits2_pos m) - 1) + k) by lia.
  rewrite !pow2_split by lia. split; [apply Z.mul_le_mono_nonneg_r | apply Z.mul_lt_mono_pos_r]; lia.
Qed.

Lemma round_between (M : positive) (e : Z) (lo hi : float) :
  -1074 <= e ->
  good lo -> good hi -> fixed hi < 2 ^ (1023 + scale) ->
  fixed lo <= Zpos M * 2 ^ (e + scale) <= fixed hi ->
  good (binary_round prec emax false M e) /\
  fixed lo <= fixed (binary_round prec emax false M e) <= fixed hi.
Proof.
  intros He Glo Ghi Hov HV. unfold binary_round.
  set (f := fexp prec emax (Zpos (digits2_pos M) + e)).
  assert (Ef : f = Z.max (Zpos (digits2_pos M) + e - 53) (-1074)) by apply fexp64.
  destruct (Z.le_gt_cases e f) as [L | G].
  - rewrite shl_align_up by exact L.
    apply round_aux_between; try assumption; unfold scale; lia.
  - destruct (shl_align_down M e f ltac:(lia)) as [E2 E1].
    destruct (shl_align M e f) as [mz ez]. cbn [fst snd] in E1, E2. subst ez.
    pose proof (digits2_pos_shift M mz (e - f) ltac:(lia) E1) as Dz.
    apply round_aux_between; try assumption.
    + unfold scale; lia.
    + rewrite Dz. replace (Zpos (digits2_pos M) + (e - f) + f) with (Zpos (digits2_pos M) + e) by lia.
      fold f. lia.
    + rewrite E1, <- Z.mul_assoc, <- pow2_split by (unfold scale; lia).
      replace (e - f + (f + scale)) with (e + scale) by lia. exact HV.
Qed.

Lemma aligned_fixed mx ex ez :
  -1074 <= ez <= ex ->
  Zpos (fst (shl_align mx ex ez)) * 2 ^ (ez + scale) = Zpos mx * 2 ^ (ex + scale).
Proof.
  intros H. destruct (shl_align_down mx ex ez ltac:(lia)) as [_ E]. rewrite E.
  rewrite <- Z.mul_assoc, <- pow2_split by (unfold scale; lia).
  f_equal. f_equal. lia.
Qed.

Lemma good_finite_inv s m e :
  good (S754_finite s m e) -> s = false /\ bounded prec emax m e = true.
Proof. intros [Hv Hn]. destruct s; [discriminate Hn |]. split; [reflexivity | exact Hv]. Qed.

Lemma good_zero s : good (S754_zero s).
Proof. split; reflexivity. Qed.

(** *** Exactly representable values *)

Lemma round_exact (M : positive) (e : Z) :
  -1074 <= e <= 970 -> Zpos M < 2 ^ 53 ->
  good (binary_round prec emax false M e) /\
  fixed (binary_round prec emax false M e) = Zpos M * 2 ^ (e + scale).
Proof.
  intros He HM. unfold binary_round.
  pose proof (digits2_pos_bounds M) as [Dlo Dhi].
  set (d := Zpos (digits2_pos M)) in *.
  assert (Hd : 0 < d <= 53).
  { split; [subst d; lia |].
    destruct (Z.le_gt_cases d 53) as [L | G]; [exact L | exfalso].
    pose proof (pow2_le 53 (d - 1) ltac:(lia) ltac:(lia)). lia. }
  set (f := fexp prec emax (d + e)).
  assert (Ef : f = Z.max (d + e - 53) (-1074)) by apply fexp64.
  destruct (shl_align_down M e f ltac:(lia)) as [E2 E1].
  destruct (shl_align M e f) as [mz ez]. cbn [fst snd] in E1, E2. subst ez.
  pose proof (digits2_pos_shift M mz (e - f) ltac:(lia) E1) as Dz. fold d in Dz.
  assert (Ff : fexp prec emax (Zpos (digits2_pos mz) + f) = f).
  { rewrite Dz. replace (d + (e - f) + f) with (d + e) by lia. reflexivity. }
  destruct (round_aux_exact_loc mz f ltac:(rewrite Ff; lia) ltac:(rewrite Ff; lia))
    as (k & _ & Hex & Hk53 & Hn & Er).
  rewrite Ff in Hex, Hn, Er. rewrite Z.sub_diag, Z.pow_0_r in Hex.
  rewrite Z.mod_1_r, Z.div_1_r in Hex. specialize (Hex eq_refl). subst k.
  rewrite Er.
  destruct (encode_good (Zpos mz) f ltac:(lia) ltac:(lia) Hn) as [Gr Fr].
  split; [exact Gr |]. rewrite Fr, E1.
  rewrite <- Z.mul_assoc, <- pow2_split by (unfold scale; lia).
  f_equal. f_equal. lia.
Qed.

Lemma normalize_exact (z e : Z) :
  0 <= z < 2 ^ 53 -> -1074 <= e <= 970 ->
  good (binary_normalize prec emax z e false) /\
  fixed (binary_normalize prec emax z e false) = z * 2 ^ (e + scale).
Proof.
  intros Hz He. destruct z as [| p | p]; [ | | lia].
  - split; [apply good_zero | reflexivity].
  - cbn [binary_normalize]. apply round_exact; lia.
Qed.

Lemma of_int_exact (z : Z) :
  0 <= z < 2 ^ 53 -> good (of_int z) /\ fixed (of_int z) = z * 2 ^ scale.
Proof.
  intros Hz. unfold of_int.
  destruct (normalize_exact z 0 Hz ltac:(lia)) as [G F]. split; [exact G |].
  rewrite F. reflexivity.
Qed.

(** *** Sums, differences and products of non-negative floats *)

Lemma add_between (x y lo hi : float) :
  good x -> good y -> good lo -> good hi -> fixed hi < 2 ^ (1023 + scale) ->
  fixed lo <= fixed x + fixed y <= fixed hi ->
  good (add x y) /\ fixed lo <= fixed (add x y) <= fixed hi.
Proof.
  intros Gx Gy Glo Ghi Hov HV. unfold add.
  destruct x as [sx | sx | | sx mx ex]; try (destruct Gx as [_ F]; discriminate F);
  destruct y as [sy | sy | | sy my ey]; try (destruct Gy as [_ F]; discriminate F).
  - cbn [SFadd]. cbn [fixed] in HV.
    destruct sx, sy; cbn [fixed]; (split; [split; reflexivity | lia]).
  - cbn [SFadd]. split; [exact Gy |]. cbn [fixed] in HV |- *. lia.
  - cbn [SFadd]. split; [exact Gx |]. cbn [fixed] in HV |- *. lia.
  - apply good_finite_inv in Gx as [-> Bx]. apply good_finite_inv in Gy as [-> By].
    pose proof (bounded_inv _ _ Bx) as (Ex & _ & _).
    pose proof (bounded_inv _ _ By) as (Ey & _ & _).
    cbn [SFadd cond_Zopp Z.add binary_normalize].
    apply round_between; try assumption; [lia |].
    rewrite Pos2Z.inj_add, Z.mul_add_distr_r.
    rewrite !aligned_fixed by lia. exact HV.
Qed.

Lemma sub_between (x y lo hi : float) :
  good x -> good y -> good lo -> good hi -> fixed hi < 2 ^ (1023 + scale) ->
  fixed lo <= fixed x - fixed y <= fixed hi ->
  good (sub x y) /\ fixed lo <= fixed (sub x y) <= fixed hi.
Proof.
  intros Gx Gy Glo Ghi Hov HV. unfold sub.
  pose proof (fixed_nonneg lo Glo) as Nlo.
  destruct x as [sx | sx | | sx mx ex]; try (destruct Gx as [_ F]; discriminate F);
  destruct y as [sy | sy | | sy my ey]; try (destruct Gy as [_ F]; discriminate F).
  - cbn [SFsub]. cbn [fixed] in HV.
    destruct sx, sy; cbn [fixed]; (split; [split; reflexivity | lia]).
  - exfalso. apply good_finite_inv in Gy as [-> By].
    pose proof (bounded_inv _ _ By) as (Ey & _ & _).
    cbn [fixed cond_Zopp] in HV.
    pose proof (pow2_pos (ey + scale) ltac:(unfold scale; lia)). nia.
  - cbn [SFsub]. split; [exact Gx |]. cbn [fixed] in HV |- *. lia.
  - apply good_finite_inv in Gx as [-> Bx]. apply good_finite_inv in Gy as [-> By].
    pose proof (bounded_inv _ _ Bx) as (Ex & _ & _).
    pose proof (bounded_inv _ _ By) as (Ey & _ & _).
    cbn [SFsub cond_Zopp].
    set (ez := Z.min ex ey).
    pose proof (aligned_fixed mx ex ez ltac:(lia)) as Ax.
    pose proof (aligned_fixed my ey ez ltac:(lia)) as Ay.
    cbn [fixed cond_Zopp] in HV. rewrite <- Ax, <- Ay, <- Z.mul_sub_distr_r in HV.
    pose proof (pow2_pos (ez + scale) ltac:(unfold scale; lia)) as P.
    destruct (Zpos (fst (shl_align mx ex ez)) - Zpos (fst (shl_align my ey ez)))
      as [| p | p] eqn:D; cbn [binary_normalize].
    + split; [apply good_zero |]. cbn [fixed]. lia.
    + apply round_between; try assumption; lia.
    + exfalso. nia.
Qed.

Lemma mul_between (x y lo hi : float) :
  good x -> good y -> good lo -> good hi -> fixed hi < 2 ^ (1023 + scale) ->
  fixed lo * 2 ^ scale <= fixed x * fixed y <= fixed hi * 2 ^ scale ->
  good (mul x y) /\ fixed lo <= fixed (mul x y) <= fixed hi.
Proof.
  intros Gx Gy Glo Ghi Hov HV. unfold mul.
  pose proof (fixed_nonneg lo Glo) as Nlo. pose proof (fixed_nonneg hi Ghi) as Nhi.
  assert (PS : 0 < 2 ^ scale) by (apply pow2_pos; unfold scale; lia).
  destruct x as [sx | sx | | sx mx ex]; try (destruct Gx as [_ F]; discriminate F);
  destruct y as [sy | sy | | sy my ey]; try (destruct Gy as [_ F]; discriminate F);
  cbn [SFmul];
  try (split; [apply good_zero |]; cbn [fixed] in HV |- *;
       rewrite ?Z.mul_0_l, ?Z.mul_0_r in HV; nia).
  apply good_finite_inv in Gx as [-> Bx]. apply good_finite_inv in Gy as [-> By].
  pose proof (bounded_inv _ _ Bx) as (Ex & Mx & Nx).
  pose proof (bounded_inv _ _ By) as (Ey & My & Ny).
  cbn [xorb].
  apply round_aux_between; try assumption.
  - unfold scale; lia.
  - rewrite fexp64.
    destruct (Z.le_gt_cases (ex + ey) (-1074)) as [L | G]; [lia |].
    pose proof (digits2_pos_bounds (mx * my)) as [Dlo Dhi].
    set (d := Zpos (digits2_pos (mx * my))) in *.
    assert (53 <= d); [| lia].
    destruct (Z.le_gt_cases 53 d) as [L | L]; [exact L | exfalso].
    pose proof (pow2_le d 52 ltac:(lia) ltac:(subst d; lia)).
    rewrite Pos2Z.inj_mul in Dhi.
    assert (2 ^ 52 <= Zpos mx \/ 2 ^ 52 <= Zpos my) as [N | N] by lia; nia.
  - cbn [fixed cond_Zopp] in HV.
    replace (Zpos mx * 2 ^ (ex + scale) * (Zpos my * 2 ^ (ey + scale)))
      with (Zpos (mx * my) * 2 ^ (ex + ey + scale) * 2 ^ scale) in HV.
    + split; apply (Z.mul_le_mono_pos_r _ _ (2 ^ scale) PS); lia.
    + rewrite Pos2Z.inj_mul.
      replace (ex + ey + scale) with ((ex + scale) + ey) by lia.
      rewrite <- Z.mul_assoc, <- (pow2_split (ex + scale + ey) scale).
      * replace (ex + scale + ey + scale) with ((ex + scale) + (ey + scale)) by lia.
        rewrite pow2_split by (unfold scale; lia). lia.
      * unfold scale; lia.
      * unfold scale; lia.
Qed.

(** *** Comparisons *)

Lemma SFcompare_antisym (x y : float) :
  SFcompare y x = option_map CompOpp (SFcompare x y).
Proof.
  destruct x as [sx | sx | | sx mx ex]; destruct y as [sy | sy | | sy my ey];
    cbn [SFcompare option_map]; try reflexivity;
    try (destruct sx; reflexivity); try (destruct sy; reflexivity);
    try (destruct sx, sy; reflexivity).
  destruct sx, sy; try reflexivity; f_equal;
    rewrite (Z.compare_antisym ex ey); destruct (ex ?= ey); cbn [CompOpp]; try reflexivity.
  - f_equal. change Eq with (CompOpp Eq) at 1.
    rewrite <- Pos.compare_cont_antisym. reflexivity.
  - change Eq with (CompOpp Eq) at 1.
    rewrite <- Pos.compare_cont_antisym. reflexivity.
Qed.

Lemma ge_is_not_lt (x y : float) :
  x <> S754_nan -> y <> S754_nan -> ge x y = negb (lt x y).
Proof.
  intros Hx Hy. unfold ge, lt, SFleb, SFltb. rewrite (SFcompare_antisym x y).
  destruct (SFcompare x y) as [[ | | ] |] eqn:E; try reflexivity.
  exfalso. destruct x, y; cbn in E; try discriminate E; congruence.
Qed.

Lemma le_fixed (x y : float) : good x -> good y -> (le x y = true <-> fixed x <= fixed y).
Proof. intros Gx Gy. unfold le. rewrite (SFleb_fixed x y Gx Gy). apply Z.leb_le. Qed.

Lemma lt_fixed (x y : float) : good x -> good y -> (lt x y = true <-> fixed x < fixed y).
Proof. intros Gx Gy. unfold lt. rewrite (SFltb_fixed x y Gx Gy). apply Z.ltb_lt. Qed.

Lemma between_fixed (a x b : float) :
  good a -> good x -> good b ->
  (between a x b = true <-> fixed a <= fixed x <= fixed b).
Proof.
  intros Ga Gx Gb. unfold between. rewrite andb_true_iff.
  rewrite (le_fixed a x Ga Gx), (le_fixed x b Gx Gb). reflexivity.
Qed.

(** *** The constants of the program *)

Lemma good_half : good half.
Proof. split; reflexivity. Qed.

Lemma fixed_half : 2 * fixed half = 2 ^ scale.
Proof. vm_compute. reflexivity. Qed.

Lemma good_one : good one /\ fixed one = 2 ^ scale.
Proof.
  destruct (of_int_exact 1 ltac:(lia)) as [G F]. split; [exact G |].
  unfold one. rewrite F. lia.
Qed.

Lemma good_zero_const : good zero /\ fixed zero = 0.
Proof. split; [split; reflexivity | reflexivity]. Qed.

Lemma below_overflow (z : Z) : 0 <= z < 2 ^ 53 -> z * 2 ^ scale < 2 ^ (1023 + scale).
Proof.
  intros Hz. rewrite (pow2_split 1023 scale) by (unfold scale; lia).
  pose proof (pow2_pos scale ltac:(unfold scale; lia)).
  pose proof (pow2_le 53 1023 ltac:(lia) ltac:(lia)).
  apply Z.mul_lt_mono_pos_r; lia.
Qed.

Lemma le_zero_good (x : float) :
  valid_binary prec emax x = true -> le zero x = true -> x <> S754_infinity false ->
  good x.
Proof.
  intros Hv Hz Hinf. split; [exact Hv |].
  destruct x as [s | s | | s m e]; cbn in Hz |- *; try reflexivity.
  - destruct s; [discriminate Hz | congruence].
  - discriminate Hz.
  - destruct s; [discriminate Hz | reflexivity].
Qed.

Lemma in_unit_interval_good (x : float) :
  in_unit_interval x -> good x /\ fixed x <= 2 ^ scale.
Proof.
  intros (Hv & Hz & H1).
  assert (G : good x).
  { apply le_zero_good; try assumption. intros ->. discriminate H1. }
  split; [exact G |].
  destruct good_one as [G1 F1]. rewrite <- F1. apply (le_fixed x one G G1). exact H1.
Qed.

Lemma in_unit_half_open_good (x : float) :
  in_unit_half_open x -> good x /\ fixed x < 2 ^ scale.
Proof.
  intros (Hv & Hz & H1).
  assert (G : good x).
  { apply le_zero_good; try assumption. intros ->. discriminate H1. }
  split; [exact G |].
  destruct good_one as [G1 F1]. rewrite <- F1. apply (lt_fixed x one G G1). exact H1.
Qed.

(** *** [1 - x] below one half, and [a + (b - a) * u] *)

Lemma one_minus_between (x : float) :
  in_unit_interval x -> lt x half = true ->
  good (sub (of_int 1) x) /\ between half (sub (of_int 1) x) one = true.
Proof.
  intros Hx Hlt. destruct (in_unit_interval_good x Hx) as [Gx Fx].
  destruct good_one as [G1 F1]. pose proof good_half as Gh. pose proof fixed_half as Fh.
  apply (lt_fixed x half Gx Gh) in Hlt.
  pose proof (fixed_nonneg x Gx) as Nx.
  assert (B : good (sub one x) /\ fixed half <= fixed (sub one x) <= fixed one).
  { apply sub_between; try assumption.
    - rewrite F1. replace (2 ^ scale) with (1 * 2 ^ scale) by lia.
      apply below_overflow. lia.
    - lia. }
  destruct B as [Gc Bc]. split; [exact Gc |].
  apply between_fixed; assumption.
Qed.

Lemma uniform_value_between (a b : Z) (u : float) :
  0 <= a <= b -> b < 2 ^ 53 -> in_unit_half_open u ->
  good (add (of_int a) (mul (of_int (b - a)) u)) /\
  between (of_int a) (add (of_int a) (mul (of_int (b - a)) u)) (of_int b) = true.
Proof.
  intros Hab Hb Hu. destruct (in_unit_half_open_good u Hu) as [Gu Fu].
  pose proof (fixed_nonneg u Gu) as Nu.
  destruct (of_int_exact a ltac:(lia)) as [Ga Fa].
  destruct (of_int_exact b ltac:(lia)) as [Gb Fb].
  destruct (of_int_exact (b - a) ltac:(lia)) as [Gd Fd].
  destruct good_zero_const as [G0 F0].
  assert (PS : 0 < 2 ^ scale) by (apply pow2_pos; unfold scale; lia).
  assert (T : good (mul (of_int (b - a)) u) /\
              fixed zero <= fixed (mul (of_int (b - a)) u) <= fixed (of_int (b - a))).
  { apply mul_between; try assumption.
    - rewrite Fd. apply below_overflow. lia.
    - rewrite F0, Fd, Z.mul_0_l.
      assert (0 <= (b - a) * 2 ^ scale) by (apply Z.mul_nonneg_nonneg; lia).
      split; [apply Z.mul_nonneg_nonneg; lia |].
      apply Z.mul_le_mono_nonneg_l; lia. }
  destruct T as [Gt Bt]. rewrite F0, Fd in Bt.
  assert (R : good (add (of_int a) (mul (of_int (b - a)) u)) /\
              fixed (of_int a) <= fixed (add (of_int a) (mul (of_int (b - a)) u))
                <= fixed (of_int b)).
  { apply add_between; try assumption.
    - rewrite Fb. apply below_overflow. lia.
    - rewrite Fa, Fb. lia. }
  destruct R as [Gr Br]. split; [exact Gr |].
  apply between_fixed; assumption.
Qed.

End Rounding.

(* ================================================================= *)
(** * The program *)

Local Open Scope nat_scope.

(* ================================================================= *)
(** ** The scorers *)

Lemma predict_lidah_verdict (self : DiabetesPredictor) (image_bytes : bytes)
    (img : tensor) (s : float) :
  preprocess_image self image_bytes = Ok img -> lidah_model self img = Ok s ->
  predict_lidah self image_bytes = Ok (lidah_verdict s).
Proof. intros Hp Hm. unfold predict_lidah. rewrite Hp. cbn. rewrite Hm. reflexivity. Qed.

Lemma predict_kuku_verdict (self : DiabetesPredictor) (image_bytes : bytes)
    (img : tensor) (s : float) :
  preprocess_image self image_bytes = Ok img -> kuku_model self img = Ok s ->
  predict_kuku self image_bytes = Ok (kuku_verdict s).
Proof. intros Hp Hm. unfold predict_kuku. rewrite Hp. cbn. rewrite Hm. reflexivity. Qed.

Lemma lidah_verdict_label (s : float) :
  label (lidah_verdict s) = if is_diabetic (lidah_verdict s) then "prediabet" else "non_diabet".
Proof. reflexivity. Qed.

Lemma kuku_verdict_label (s : float) :
  label (kuku_verdict s) = if is_diabetic (kuku_verdict s) then "prediabet" else "non_diabet".
Proof. reflexivity. Qed.

(** C1. Both scorers cut at 0.5 with opposite polarity: the tongue scorer
    is positive ("prediabet") exactly when the raw score is strictly below
    0.5, the nail scorer exactly when it is at least 0.5; at 0.5 itself the
    tongue verdict is negative ("non_diabet") and the nail verdict positive.
    For a finite non-negative score the two tests are the comparisons of the
    score's exact value with one half. *)
Theorem C1_threshold_polarity (self : DiabetesPredictor) (image_bytes : bytes)
    (img : tensor) (sl sk : float) :
  preprocess_image self image_bytes = Ok img ->
  lidah_model self img = Ok sl -> kuku_model self img = Ok sk ->
  exists l k,
    predict_lidah self image_bytes = Ok l /\ predict_kuku self image_bytes = Ok k /\
    ((is_diabetic l = true /\ label l = "prediabet") <-> lt sl half = true) /\
    ((is_diabetic l = false /\ label l = "non_diabet") <-> lt sl half = false) /\
    ((is_diabetic k = true /\ label k = "prediabet") <-> ge sk half = true) /\
    ((is_diabetic k = false /\ label k = "non_diabet") <-> ge sk half = false) /\
    (sl = half -> is_diabetic l = false /\ label l = "non_diabet") /\
    (sk = half -> is_diabetic k = true /\ label k = "prediabet") /\
    (sl = sk -> sl <> S754_nan -> is_diabetic l = negb (is_diabetic k)) /\
    (good sl -> (is_diabetic l = true <-> (2 * fixed sl < 2 ^ scale)%Z)) /\
    (good sk -> (is_diabetic k = true <-> (2 ^ scale <= 2 * fixed sk)%Z)).
Proof.
  intros Hp Hl Hk. exists (lidah_verdict sl), (kuku_verdict sk).
  split; [exact (predict_lidah_verdict _ _ _ _ Hp Hl) |].
  split; [exact (predict_kuku_verdict _ _ _ _ Hp Hk) |].
  unfold lidah_verdict, kuku_verdict; cbn [is_diabetic label].
  pose proof Rounding.fixed_half as Fh.
  split. { split; [intros [H _]; exact H | intros H; rewrite H; split; reflexivity]. }
  split. { split; [intros [H _]; exact H | intros H; rewrite H; split; reflexivity]. }
  split. { split; [intros [H _]; exact H | intros H; rewrite H; split; reflexivity]. }
  split. { split; [intros [H _]; exact H | intros H; rewrite H; split; reflexivity]. }
  split. { intros ->. split; reflexivity. }
  split. { intros ->. split; reflexivity. }
  split.
  { intros <- Hnan. rewrite Rounding.ge_is_not_lt; [| exact Hnan | discriminate].
    rewrite negb_involutive. reflexivity. }
  split.
  - intros G. rewrite (Rounding.lt_fixed sl half G Rounding.good_half). lia.
  - intros G. unfold ge. fold (le half sk).
    rewrite (Rounding.le_fixed half sk Rounding.good_half G). lia.
Qed.

Lemma C1_threshold_polarity_witness :
  exists l k,
    predict_lidah (stub_predictor half half) [x01] = Ok l /\
    predict_kuku (stub_predictor half half) [x01] = Ok k /\
    ((is_diabetic l = true /\ label l = "prediabet") <-> lt half half = true) /\
    ((is_diabetic l = false /\ label l = "non_diabet") <-> lt half half = false) /\
    ((is_diabetic k = true /\ label k = "prediabet") <-> ge half half = true) /\
    ((is_diabetic k = false /\ label k = "non_diabet") <-> ge half half = false) /\
    (half = half -> is_diabetic l = false /\ label l = "non_diabet") /\
    (half = half -> is_diabetic k = true /\ label k = "prediabet") /\
    (half = half -> half <> S754_nan -> is_diabetic l = negb (is_diabetic k)) /\
    (good half -> (is_diabetic l = true <-> (2 * fixed half < 2 ^ scale)%Z)) /\
    (good half -> (is_diabetic k = true <-> (2 ^ scale <= 2 * fixed half)%Z)).
Proof.
  eapply (C1_threshold_polarity (stub_predictor half half) [x01]); reflexivity.
Defined.

(** A score that is not below one half, or not at least one half. *)
Lemma not_lt_half (s : float) :
  good s -> lt s half = false -> (fixed half <= fixed s)%Z.
Proof.
  intros G H. destruct (Z.le_gt_cases (fixed half) (fixed s)) as [L | L]; [exact L |].
  apply (Rounding.lt_fixed s half G Rounding.good_half) in L. congruence.
Qed.

Lemma not_ge_half (s : float) : good s -> ge s half = false -> lt s half = true.
Proof.
  intros G H. apply (Rounding.lt_fixed s half G Rounding.good_half).
  destruct (Z.le_gt_cases (fixed half) (fixed s)) as [L | L]; [| lia].
  apply (Rounding.le_fixed half s Rounding.good_half G) in L.
  unfold ge in H. unfold le in L. congruence.
Qed.

Lemma good_in_unit (x : float) :
  good x -> (fixed x <= 2 ^ scale)%Z -> in_unit_interval x.
Proof.
  intros G F. destruct Rounding.good_zero_const as [G0 F0].
  destruct Rounding.good_one as [G1 F1].
  split; [apply G |]. split.
  - apply (Rounding.le_fixed zero x G0 G). rewrite F0. apply Rounding.fixed_nonneg, G.
  - apply (Rounding.le_fixed x one G G1). rewrite F1. exact F.
Qed.

(** The reported confidence of either scorer on a score in [0, 1]. *)
Lemma lidah_confidence_between (s : float) :
  in_unit_interval s ->
  good (confidence (lidah_verdict s)) /\
  between half (confidence (lidah_verdict s)) one = true.
Proof.
  intros Hs. destruct (Rounding.in_unit_interval_good s Hs) as [G F].
  unfold lidah_verdict; cbn [confidence].
  destruct (lt s half) eqn:E.
  - apply Rounding.one_minus_between; assumption.
  - split; [exact G |].
    apply (Rounding.between_fixed half s one Rounding.good_half G (proj1 Rounding.good_one)).
    rewrite (proj2 Rounding.good_one). split; [apply not_lt_half; assumption | exact F].
Qed.

Lemma kuku_confidence_between (s : float) :
  in_unit_interval s ->
  good (confidence (kuku_verdict s)) /\
  between half (confidence (kuku_verdict s)) one = true.
Proof.
  intros Hs. destruct (Rounding.in_unit_interval_good s Hs) as [G F].
  unfold kuku_verdict; cbn [confidence].
  destruct (ge s half) eqn:E.
  - split; [exact G |].
    apply (Rounding.between_fixed half s one Rounding.good_half G (proj1 Rounding.good_one)).
    rewrite (proj2 Rounding.good_one). split; [| exact F].
    apply (Rounding.le_fixed half s Rounding.good_half G). exact E.
  - apply Rounding.one_minus_between; [assumption | apply not_ge_half; assumption].
Qed.

Lemma between_half_one_in_unit (c : float) :
  good c -> between half c one = true -> in_unit_interval c.
Proof.
  intros G B.
  apply (Rounding.between_fixed half c one Rounding.good_half G (proj1 Rounding.good_one)) in B.
  rewrite (proj2 Rounding.good_one) in B. apply good_in_unit; [exact G | lia].
Qed.

(** C3. On a raw score in [0, 1] the tongue scorer reports [1 - score] when
    positive and the score when negative, the nail scorer the score when
    positive and [1 - score] when negative; the reported confidence is again
    a float in [0, 1] and the label is "prediabet" or "non_diabet". *)
Theorem C3_confidence_and_label (s : float) :
  in_unit_interval s ->
  (is_diabetic (lidah_verdict s) = true ->
     confidence (lidah_verdict s) = sub (of_int 1) s) /\
  (is_diabetic (lidah_verdict s) = false -> confidence (lidah_verdict s) = s) /\
  (is_diabetic (kuku_verdict s) = true -> confidence (kuku_verdict s) = s) /\
  (is_diabetic (kuku_verdict s) = false ->
     confidence (kuku_verdict s) = sub (of_int 1) s) /\
  in_unit_interval (confidence (lidah_verdict s)) /\
  in_unit_interval (confidence (kuku_verdict s)) /\
  (label (lidah_verdict s) = "prediabet" \/ label (lidah_verdict s) = "non_diabet") /\
  (label (kuku_verdict s) = "prediabet" \/ label (kuku_verdict s) = "non_diabet").
Proof.
  intros Hs.
  destruct (lidah_confidence_between s Hs) as [Gl Bl].
  destruct (kuku_confidence_between s Hs) as [Gk Bk].
  split. { unfold lidah_verdict; cbn [is_diabetic confidence]. intros ->. reflexivity. }
  split. { unfold lidah_verdict; cbn [is_diabetic confidence]. intros ->. reflexivity. }
  split. { unfold kuku_verdict; cbn [is_diabetic confidence]. intros ->. reflexivity. }
  split. { unfold kuku_verdict; cbn [is_diabetic confidence]. intros ->. reflexivity. }
  split. { apply between_half_one_in_unit; assumption. }
  split. { apply between_half_one_in_unit; assumption. }
  split.
  - rewrite lidah_verdict_label. destruct (is_diabetic (lidah_verdict s)); [left | right]; reflexivity.
  - rewrite kuku_verdict_label. destruct (is_diabetic (kuku_verdict s)); [left | right]; reflexivity.
Qed.

Lemma C3_confidence_and_label_witness :
  in_unit_interval (confidence (lidah_verdict score_0_2)) /\
  in_unit_interval (confidence (kuku_verdict score_0_2)).
Proof.
  pose proof (C3_confidence_and_label score_0_2
                ltac:(repeat split; vm_compute; reflexivity)) as H.
  exact (conj (proj1 (proj2 (proj2 (proj2 (proj2 H)))))
              (proj1 (proj2 (proj2 (proj2 (proj2 (proj2 H))))))).
Defined.

(** C10. On a raw score in [0, 1] the confidence either scorer reports is
    at least 0.5 and at most 1. *)
Theorem C10_confidence_at_least_half (s : float) :
  in_unit_interval s ->
  between half (confidence (lidah_verdict s)) one = true /\
  between half (confidence (kuku_verdict s)) one = true.
Proof.
  intros Hs. split.
  - apply lidah_confidence_between, Hs.
  - apply kuku_confidence_between, Hs.
Qed.

Lemma C10_confidence_at_least_half_witness :
  between half (confidence (lidah_verdict score_0_9)) one = true /\
  between half (confidence (kuku_verdict score_0_9)) one = true.
Proof.
  apply (C10_confidence_at_least_half score_0_9).
  repeat split; vm_compute; reflexivity.
Defined.

(* ================================================================= *)
(** ** Risk aggregation *)

Lemma uniform_between (R : RandomSource) (a b : Z) (g : rng R) :
  random_in_unit R -> (0 <= a <= b)%Z -> (b < 2 ^ 53)%Z ->
  good (fst (uniform R a b g)) /\
  between (of_int a) (fst (uniform R a b g)) (of_int b) = true.
Proof.
  intros HR Hab Hb. unfold uniform. specialize (HR g).
  destruct (random R g) as [u g']. cbn [fst] in *.
  apply Rounding.uniform_value_between; assumption.
Qed.

Lemma counter_source_random : random_in_unit counter_source.
Proof.
  intros g. cbn [random counter_source fst].
  set (k := ((Z.of_nat g * 6364136223846793005 + 1442695040888963407) mod 2 ^ 53)%Z).
  assert (Hk : (0 <= k < 2 ^ 53)%Z) by (subst k; apply Z.mod_pos_bound; lia).
  destruct (Rounding.normalize_exact k (-53) Hk ltac:(lia)) as [G F].
  destruct Rounding.good_zero_const as [G0 F0]. destruct Rounding.good_one as [G1 F1].
  split; [apply G |]. split.
  - apply (Rounding.le_fixed _ _ G0 G). rewrite F0. apply Rounding.fixed_nonneg, G.
  - apply (Rounding.lt_fixed _ _ G G1). rewrite F, F1.
    replace (2 ^ scale)%Z with (2 ^ 53 * 2 ^ (-53 + scale))%Z
      by (rewrite <- Rounding.pow2_split by (unfold scale; lia); reflexivity).
    apply Z.mul_lt_mono_pos_r; [apply Rounding.pow2_pos; unfold scale; lia | lia].
Qed.

Lemma counter_source_randbelow : randbelow_in_range counter_source.
Proof. intros n g Hn. cbn. apply Nat.mod_upper_bound. lia. Qed.

(** C2. [calculate_risk_level] answers TINGGI (High) with a percentage in
    [75, 95] when both flags are set, SEDANG (Moderate) with a percentage in
    [45, 70] when exactly one is, and RENDAH (Low) with a percentage in
    [5, 25] when none is, whatever number in [0.0, 1.0) the random source
    draws. *)
Theorem C2_risk_bands (R : RandomSource) (lidah_diabetic kuku_diabetic : bool)
    (g : rng R) :
  random_in_unit R ->
  let tier := fst (fst (calculate_risk_level R lidah_diabetic kuku_diabetic g)) in
  let pct := snd (fst (calculate_risk_level R lidah_diabetic kuku_diabetic g)) in
  match lidah_diabetic, kuku_diabetic with
  | true, true => tier = TINGGI /\ between (of_int 75) pct (of_int 95) = true
  | false, false => tier = RENDAH /\ between (of_int 5) pct (of_int 25) = true
  | _, _ => tier = SEDANG /\ between (of_int 45) pct (of_int 70) = true
  end.
Proof.
  intros HR.
  pose proof (uniform_between R 75 95 g HR ltac:(lia) ltac:(lia)) as [_ H1].
  pose proof (uniform_between R 45 70 g HR ltac:(lia) ltac:(lia)) as [_ H2].
  pose proof (uniform_between R 5 25 g HR ltac:(lia) ltac:(lia)) as [_ H3].
  unfold calculate_risk_level.
  destruct lidah_diabetic, kuku_diabetic; cbn [andb orb].
  - destruct (uniform R 75 95 g) as [p g']. cbn [fst snd] in *. split; [reflexivity | exact H1].
  - destruct (uniform R 45 70 g) as [p g']. cbn [fst snd] in *. split; [reflexivity | exact H2].
  - destruct (uniform R 45 70 g) as [p g']. cbn [fst snd] in *. split; [reflexivity | exact H2].
  - destruct (uniform R 5 25 g) as [p g']. cbn [fst snd] in *. split; [reflexivity | exact H3].
Qed.

Lemma C2_risk_bands_witness :
  fst (fst (calculate_risk_level counter_source true false 4%nat)) = SEDANG /\
  between (of_int 45)
    (snd (fst (calculate_risk_level counter_source true false 4%nat))) (of_int 70) = true.
Proof.
  exact (C2_risk_bands counter_source true false 4%nat counter_source_random).
Defined.

(* ================================================================= *)
(** ** Factor selection *)

Lemma elem_of_insert_old {A : Type} (l : list A) (j : nat) (x y : A) :
  y ∈ l -> x ∈ <[j := y]> l -> x ∈ l.
Proof.
  intros Hy Hx. apply list_elem_of_lookup in Hx as [i Hi].
  apply list_lookup_insert_Some in Hi as [(_ & <- & _) | (_ & Hi)].
  - exact Hy.
  - eapply list_elem_of_lookup_2, Hi.
Qed.

(** Whenever the pool loop returns, it returns [k] elements of the pool. *)
Lemma sample_pool_subset {A : Type} (R : RandomSource) (k : nat) :
  forall (i n : nat) (pool : list A) (g : rng R) (xs : list A),
    fst (sample_pool R k i n pool g) = Ok xs ->
    length xs = k /\ forall x, x ∈ xs -> x ∈ pool.
Proof.
  induction k as [| k IH]; intros i n pool g xs; cbn [sample_pool].
  - intros [= <-]. split; [reflexivity |]. intros x Hx. inversion Hx.
  - destruct (randbelow R (n - i) g) as [j g1].
    destruct (pool !! j) as [x |] eqn:Ex; [| discriminate].
    destruct (pool !! (n - i - 1)) as [y |] eqn:Ey; [| discriminate].
    specialize (IH (S i) n (<[j := y]> pool) g1).
    destruct (sample_pool R k (S i) n (<[j := y]> pool) g1) as [[rest |] g2];
      cbn; [| discriminate].
    intros [= <-]. destruct (IH rest eq_refl) as [Hlen Hsub].
    split; [cbn; f_equal; exact Hlen |].
    intros z Hz. apply elem_of_cons in Hz as [-> | Hz].
    + eapply list_elem_of_lookup_2, Ex.
    + eapply elem_of_insert_old; [eapply list_elem_of_lookup_2, Ey | apply Hsub, Hz].
Qed.

(** With [_randbelow] in range the pool loop never indexes out of the pool. *)
Lemma sample_pool_ok {A : Type} (R : RandomSource) (k : nat) :
  randbelow_in_range R ->
  forall (i n : nat) (pool : list A) (g : rng R),
    length pool = n -> i + k <= n ->
    exists xs, fst (sample_pool R k i n pool g) = Ok xs.
Proof.
  intros HR. induction k as [| k IH]; intros i n pool g Hlen Hik; cbn [sample_pool].
  - exists []. reflexivity.
  - pose proof (HR (n - i) g ltac:(lia)) as Hj.
    destruct (randbelow R (n - i) g) as [j g1]. cbn [fst] in Hj.
    destruct (lookup_lt_is_Some_2 pool j ltac:(lia)) as [x ->].
    destruct (lookup_lt_is_Some_2 pool (n - i - 1) ltac:(lia)) as [y ->].
    destruct (IH (S i) n (<[j := y]> pool) g1
                ltac:(rewrite length_insert; exact Hlen) ltac:(lia)) as [rest Hrest].
    destruct (sample_pool R k (S i) n (<[j := y]> pool) g1) as [r g2].
    cbn [fst] in Hrest. subst r. exists (x :: rest). reflexivity.
Qed.

Lemma sample_subset {A : Type} (R : RandomSource) (population : list A) (k : nat)
    (g : rng R) (xs : list A) :
  fst (sample R population k g) = Ok xs ->
  length xs = k /\ forall x, x ∈ xs -> x ∈ population.
Proof.
  unfold sample. destruct (negb (k <=? length population)); [discriminate |].
  destruct ((k <=? 5) && (length population <=? 21)); [| discriminate].
  apply sample_pool_subset.
Qed.

Lemma sample_ok {A : Type} (R : RandomSource) (population : list A) (k : nat)
    (g : rng R) :
  randbelow_in_range R -> k <= 5 -> k <= length population <= 21 ->
  exists xs, fst (sample R population k g) = Ok xs.
Proof.
  intros HR Hk Hn. unfold sample.
  replace (k <=? length population) with true by (symmetry; apply Nat.leb_le; lia).
  replace (k <=? 5) with true by (symmetry; apply Nat.leb_le; lia).
  replace (length population <=? 21) with true by (symmetry; apply Nat.leb_le; lia).
  cbn [negb andb]. apply sample_pool_ok; [exact HR | reflexivity | lia].
Qed.

Lemma candidate_factors_eq (lidah_diabetic kuku_diabetic : bool) :
  candidate_factors lidah_diabetic kuku_diabetic =
  Ok ((if lidah_diabetic then lidah_pool else []) ++
      (if kuku_diabetic then kuku_pool else []))%list.
Proof. destruct lidah_diabetic, kuku_diabetic; reflexivity. Qed.

Lemma pool_lengths : length lidah_pool = 6 /\ length kuku_pool = 9.
Proof. split; reflexivity. Qed.

(** The four shapes of [get_risk_factors]: without a positive flag the fixed
    list, otherwise three elements sampled from the candidates. *)
Lemma get_risk_factors_all_clear (R : RandomSource) (g : rng R) :
  get_risk_factors R false false g = (Ok all_clear_factors, g).
Proof. reflexivity. Qed.

Lemma get_risk_factors_unfold (R : RandomSource) (lidah_diabetic kuku_diabetic : bool)
    (g : rng R) (fs : list string) :
  candidate_factors lidah_diabetic kuku_diabetic = Ok fs ->
  select_arm fs = Sampled ->
  get_risk_factors R lidah_diabetic kuku_diabetic g =
    (take 3 <$> fst (sample R fs 3 g), snd (sample R fs 3 g)).
Proof.
  intros Hc Hs. unfold get_risk_factors. rewrite Hc.
  destruct fs as [| f fs]; [discriminate Hs |].
  rewrite Hs. destruct (sample R (f :: fs) 3 g) as [r g']. reflexivity.
Qed.

Lemma get_risk_factors_sampled (R : RandomSource) (lidah_diabetic kuku_diabetic : bool)
    (g : rng R) :
  lidah_diabetic || kuku_diabetic = true ->
  exists fs,
    candidate_factors lidah_diabetic kuku_diabetic = Ok fs /\
    3 < length fs <= 15 /\
    get_risk_factors R lidah_diabetic kuku_diabetic g =
      (take 3 <$> fst (sample R fs 3 g), snd (sample R fs 3 g)).
Proof.
  intros H. destruct lidah_diabetic, kuku_diabetic; try discriminate H; clear H.
  - exists (lidah_pool ++ kuku_pool)%list. split; [reflexivity |].
    split; [split; [apply Nat.ltb_lt | apply Nat.leb_le]; reflexivity |].
    apply get_risk_factors_unfold; reflexivity.
  - exists lidah_pool. split; [reflexivity |].
    split; [split; [apply Nat.ltb_lt | apply Nat.leb_le]; reflexivity |].
    apply get_risk_factors_unfold; reflexivity.
  - exists kuku_pool. split; [reflexivity |].
    split; [split; [apply Nat.ltb_lt | apply Nat.leb_le]; reflexivity |].
    apply get_risk_factors_unfold; reflexivity.
Qed.

(** C4. For each of the four flag combinations and every outcome of the
    sampling, [get_risk_factors] returns a list of exactly three strings. *)
Theorem C4_exactly_three_factors (R : RandomSource)
    (lidah_diabetic kuku_diabetic : bool) (g : rng R) :
  randbelow_in_range R ->
  exists factors : list string,
    fst (get_risk_factors R lidah_diabetic kuku_diabetic g) = Ok factors /\
    length factors = 3.
Proof.
  intros HR. destruct (lidah_diabetic || kuku_diabetic) eqn:E.
  - destruct (get_risk_factors_sampled R _ _ g E) as (fs & _ & Hlen & ->).
    destruct (sample_ok R fs 3 g HR ltac:(lia) ltac:(lia)) as [xs Hxs].
    destruct (sample_subset R fs 3 g xs Hxs) as [Hl _].
    cbn [fst]. rewrite Hxs. exists (take 3 xs). split; [reflexivity |].
    rewrite length_take. lia.
  - apply orb_false_elim in E as [-> ->].
    exists all_clear_factors. split; reflexivity.
Qed.

Lemma C4_exactly_three_factors_witness :
  exists factors : list string,
    fst (get_risk_factors counter_source true true 11) = Ok factors /\
    length factors = 3.
Proof.
  exact (C4_exactly_three_factors counter_source true true 11 counter_source_randbelow).
Defined.

(** C7. With both flags negative [get_risk_factors] returns the fixed
    three-item all-clear list, whatever the random source and its state, and
    leaves that state untouched. *)
Theorem C7_all_clear_is_fixed (R : RandomSource) (g : rng R) :
  get_risk_factors R false false g =
    (Ok [ "No significant abnormalities detected";
          "Normal appearance observed";
          "Healthy indicators present" ], g).
Proof. apply get_risk_factors_all_clear. Qed.

(** C9. The tongue pool has 6 phrases and the nail pool 9, so the candidate
    list has 0, 6, 9 or 15 entries; a non-empty candidate list always takes
    the sampling arm, never the padding arm; and no general phrase occurs in
    a list [get_risk_factors] returns. *)
Theorem C9_padding_unreachable (lidah_diabetic kuku_diabetic : bool) :
  LIDAH_RISK_FACTORS !! "diabet" = Some lidah_pool /\ length lidah_pool = 6 /\
  KUKU_RISK_FACTORS !! "prediabet" = Some kuku_pool /\ length kuku_pool = 9 /\
  exists fs,
    candidate_factors lidah_diabetic kuku_diabetic = Ok fs /\
    (length fs = 0 \/ length fs = 6 \/ length fs = 9 \/ length fs = 15) /\
    (fs <> [] -> select_arm fs = Sampled) /\
    forall (R : RandomSource) (g : rng R) (factors : list string),
      fst (get_risk_factors R lidah_diabetic kuku_diabetic g) = Ok factors ->
      forall x, x ∈ factors -> x ∉ general_factors.
Proof.
  split; [reflexivity |]. split; [reflexivity |].
  split; [reflexivity |]. split; [reflexivity |].
  destruct (lidah_diabetic || kuku_diabetic) eqn:E.
  - destruct (get_risk_factors_sampled counter_source _ _ 0 E) as (fs & Hc & Hlen & _).
    exists fs. split; [exact Hc |].
    assert (Hfs : forall x, x ∈ fs -> x ∉ general_factors).
    { intros x Hx Hg. revert Hx. rewrite candidate_factors_eq in Hc. injection Hc as <-.
      unfold general_factors in Hg.
      repeat (apply elem_of_cons in Hg as [-> | Hg]);
        [ | | | inversion Hg ];
        destruct lidah_diabetic, kuku_diabetic; try discriminate E;
        intros Hx; vm_compute in Hx;
        repeat (apply elem_of_cons in Hx as [Hx | Hx]; [discriminate Hx |]);
        inversion Hx. }
    split.
    { rewrite candidate_factors_eq in Hc. injection Hc as <-.
      destruct lidah_diabetic, kuku_diabetic; try discriminate E;
        [right; right; right | right; left | right; right; left]; reflexivity. }
    split.
    { intros _. unfold select_arm.
      replace (3 <? length fs) with true by (symmetry; apply Nat.ltb_lt; lia).
      reflexivity. }
    intros R g factors Hf x Hx.
    destruct (get_risk_factors_sampled R _ _ g E) as (fs' & Hc' & _ & Eq).
    rewrite Hc in Hc'. injection Hc' as <-. rewrite Eq in Hf. cbn [fst] in Hf.
    destruct (fst (sample R fs 3 g)) as [xs |] eqn:Es; [| discriminate Hf].
    injection Hf as <-.
    apply Hfs. apply (sample_subset R fs 3 g xs Es).
    eapply subseteq_take, Hx.
  - apply orb_false_elim in E as [-> ->].
    exists []. split; [reflexivity |]. split; [left; reflexivity |].
    split; [congruence |].
    intros R g factors Hf x Hx Hg. rewrite get_risk_factors_all_clear in Hf.
    injection Hf as <-. unfold general_factors in Hg. unfold all_clear_factors in Hx.
    repeat (apply elem_of_cons in Hg as [-> | Hg]);
      [ | | | inversion Hg ];
      repeat (apply elem_of_cons in Hx as [Hx | Hx]; [discriminate Hx |]);
      inversion Hx.
Qed.

(* ================================================================= *)
(** ** Absent and empty inputs *)

Lemma calculate_risk_level_tier (R : RandomSource) (lidah_diabetic kuku_diabetic : bool)
    (g : rng R) :
  fst (fst (calculate_risk_level R lidah_diabetic kuku_diabetic g)) =
    if lidah_diabetic && kuku_diabetic then TINGGI
    else if lidah_diabetic || kuku_diabetic then SEDANG
    else RENDAH.
Proof.
  unfold calculate_risk_level.
  destruct lidah_diabetic, kuku_diabetic; cbn [andb orb];
    match goal with |- context [uniform R ?a ?b g] => destruct (uniform R a b g) end;
    reflexivity.
Qed.

(** C6. A missing verdict enters risk aggregation and factor selection as
    the flag [False]: with either modality absent both functions are called
    exactly as with that modality negative, so the tier is the same, and it
    is never above the tier reached with any verdict for that modality. *)
Theorem C6_absent_counts_as_negative (R : RandomSource)
    (other : option SingleDetectionResult) (g : rng R) :
  let b := is_diabetic_or_False other in
  calculate_risk_level R (is_diabetic_or_False None) b g = calculate_risk_level R false b g /\
  calculate_risk_level R b (is_diabetic_or_False None) g = calculate_risk_level R b false g /\
  get_risk_factors R (is_diabetic_or_False None) b g = get_risk_factors R false b g /\
  get_risk_factors R b (is_diabetic_or_False None) g = get_risk_factors R b false g /\
  (forall (v : SingleDetectionResult) (g' : rng R),
     is_diabetic v = false ->
     fst (fst (calculate_risk_level R (is_diabetic_or_False None) b g)) =
     fst (fst (calculate_risk_level R (is_diabetic_or_False (Some v)) b g')) /\
     fst (fst (calculate_risk_level R b (is_diabetic_or_False None) g)) =
     fst (fst (calculate_risk_level R b (is_diabetic_or_False (Some v)) g'))) /\
  (forall (v : option SingleDetectionResult) (g' : rng R),
     RiskLevel_rank (fst (fst (calculate_risk_level R (is_diabetic_or_False None) b g)))
       <= RiskLevel_rank (fst (fst (calculate_risk_level R (is_diabetic_or_False v) b g'))) /\
     RiskLevel_rank (fst (fst (calculate_risk_level R b (is_diabetic_or_False None) g)))
       <= RiskLevel_rank (fst (fst (calculate_risk_level R b (is_diabetic_or_False v) g')))).
Proof.
  intros b. repeat (split; [reflexivity |]). split.
  - intros v g' Hv. rewrite !calculate_risk_level_tier. cbn [is_diabetic_or_False].
    rewrite Hv. split; reflexivity.
  - intros v g'. rewrite !calculate_risk_level_tier. cbn [is_diabetic_or_False].
    destruct (is_diabetic_or_False v), b; cbn; lia.
Qed.

(** C8. An empty byte string is skipped like a missing one: whatever the
    predictor, even one whose decoder rejects every input, [predict_both]
    does not score that modality, raises nothing for it and answers [None];
    with both inputs empty the answer is [(None, None)]. *)
Theorem C8_empty_bytes_are_skipped (self : DiabetesPredictor)
    (lidah_bytes kuku_bytes : option bytes) :
  predict_both self (Some []) kuku_bytes = predict_both self None kuku_bytes /\
  predict_both self lidah_bytes (Some []) = predict_both self lidah_bytes None /\
  predict_both self (Some []) (Some []) = Ok (None, None) /\
  (forall r, predict_both self (Some []) kuku_bytes = Ok r -> fst r = None) /\
  (forall r, predict_both self lidah_bytes (Some []) = Ok r -> snd r = None).
Proof.
  split; [reflexivity |]. split; [reflexivity |]. split; [reflexivity |]. split.
  - intros r. unfold predict_both. cbn [truthy_bytes].
    destruct (truthy_bytes kuku_bytes); cbn.
    + destruct (predict_kuku self (default [] kuku_bytes)); cbn; [| discriminate].
      intros [= <-]. reflexivity.
    + intros [= <-]. reflexivity.
  - intros r. unfold predict_both. cbn [truthy_bytes].
    destruct (truthy_bytes lidah_bytes); cbn.
    + destruct (predict_lidah self (default [] lidah_bytes)); cbn; [| discriminate].
      intros [= <-]. reflexivity.
    + intros [= <-]. reflexivity.
Qed.

(** C5 (the code departs from the claim). An empty upload to [/predict] is a
    supplied image that cannot be decoded, yet the request is not aborted:
    whatever the predictor, the answer is a complete low-risk assessment with
    no verdict at all.  The sibling endpoint [/predict/lidah] answers the
    same upload with a 500 error. *)
Theorem C5_empty_upload_is_not_rejected (self : DiabetesPredictor) (R : RandomSource)
    (g : rng R) :
  raises (predict_lidah (stub_predictor half half) []) = true /\
  fst (predict_flexible (Some self) R (Some {| read := [] |}) None g) =
    Response {| risk_level := RENDAH;
                risk_percentage := fst (uniform R 5 25 g);
                lidah_result := None;
                kuku_result := None;
                risk_factors_identified := all_clear_factors;
                recommendation := get_recommendation RENDAH |} /\
  fst (predict_lidah_only (Some self) R {| read := [] |} g) =
    HTTPException 500
      "Prediction error: 'NoneType' object has no attribute 'is_diabetic'".
Proof.
  split; [reflexivity |]. split; [| reflexivity].
  unfold predict_flexible. cbn -[uniform get_recommendation].
  unfold assemble, calculate_risk_level. cbn [andb orb].
  destruct (uniform R 5 25 g) as [p g']. reflexivity.
Qed.

(* ================================================================= *)
(** ** Further properties of the scorers *)

(** X1. On one raw score the two scorers report the same confidence; their
    flags are opposite exactly when the score is a number. *)
Theorem verdicts_mirror (s : float) :
  (s <> S754_nan ->
     is_diabetic (lidah_verdict s) = negb (is_diabetic (kuku_verdict s)) /\
     confidence (lidah_verdict s) = confidence (kuku_verdict s)) /\
  (s = S754_nan ->
     is_diabetic (lidah_verdict s) = false /\ is_diabetic (kuku_verdict s) = false /\
     confidence (lidah_verdict s) = S754_nan /\ confidence (kuku_verdict s) = S754_nan).
Proof.
  split.
  - intros Hs. unfold lidah_verdict, kuku_verdict; cbn [is_diabetic confidence].
    rewrite (Rounding.ge_is_not_lt s half Hs ltac:(discriminate)).
    rewrite negb_involutive. split; [reflexivity |].
    destruct (lt s half); reflexivity.
  - intros ->. repeat split; reflexivity.
Qed.

Lemma verdicts_mirror_witness :
  is_diabetic (lidah_verdict score_0_2) = negb (is_diabetic (kuku_verdict score_0_2)) /\
  confidence (lidah_verdict score_0_2) = confidence (kuku_verdict score_0_2).
Proof.
  apply (proj1 (verdicts_mirror score_0_2)). discriminate.
Defined.

(* ================================================================= *)
(** ** Sampling without replacement *)

Lemma pool_step_perm {A : Type} (pool : list A) (j m : nat) (x y : A) :
  j <= m -> pool !! j = Some x -> pool !! m = Some y ->
  take (S m) pool ≡ₚ x :: take m (<[j := y]> pool).
Proof.
  intros Hjm Hx Hy. rewrite (take_S_r pool m y Hy).
  destruct (decide (j = m)) as [-> | Hne].
  - assert (x = y) by congruence. subst y.
    rewrite take_insert_ge by lia. symmetry. apply Permutation_cons_append.
  - rewrite take_insert_lt by lia.
    assert (HT : take m pool !! j = Some x) by (rewrite lookup_take_lt by lia; exact Hx).
    rewrite insert_take_drop by (eapply lookup_lt_Some, HT).
    etransitivity; [symmetry; apply Permutation_cons_append |].
    etransitivity; [| apply perm_skip, Permutation_middle].
    rewrite <- delete_take_drop.
    etransitivity; [apply perm_skip, (delete_Permutation _ _ _ HT) | apply perm_swap].
Qed.

(** The pool loop keeps the not yet selected items, without repetition, in
    the first [n - i] cells; what it selects is distinct. *)
Lemma sample_pool_NoDup {A : Type} (R : RandomSource) (k : nat) :
  randbelow_in_range R ->
  forall (i n : nat) (pool : list A) (g : rng R) (xs : list A),
    length pool = n -> i + k <= n -> NoDup (take (n - i) pool) ->
    fst (sample_pool R k i n pool g) = Ok xs ->
    NoDup xs /\ forall x, x ∈ xs -> x ∈ take (n - i) pool.
Proof.
  intros HR. induction k as [| k IH]; intros i n pool g xs Hlen Hik Hnd; cbn [sample_pool].
  - intros [= <-]. split; [constructor |]. intros x Hx. inversion Hx.
  - pose proof (HR (n - i) g ltac:(lia)) as Hj.
    destruct (randbelow R (n - i) g) as [j g1]. cbn [fst] in Hj.
    destruct (pool !! j) as [x |] eqn:Ex; [| discriminate].
    destruct (pool !! (n - i - 1)) as [y |] eqn:Ey; [| discriminate].
    pose proof (pool_step_perm pool j (n - i - 1) x y ltac:(lia) Ex Ey) as Hperm.
    replace (S (n - i - 1)) with (n - i) in Hperm by lia.
    rewrite Hperm in Hnd. apply NoDup_cons in Hnd as [Hx Hnd'].
    specialize (IH (S i) n (<[j := y]> pool) g1).
    destruct (sample_pool R k (S i) n (<[j := y]> pool) g1) as [[rest |] g2];
      cbn; [| discriminate].
    intros [= <-].
    replace (n - S i) with (n - i - 1) in IH by lia.
    destruct (IH rest ltac:(rewrite length_insert; exact Hlen) ltac:(lia) Hnd' eq_refl)
      as [Hnr Hsub].
    split.
    + apply NoDup_cons. split; [| exact Hnr]. intros Hin. apply Hx, Hsub, Hin.
    + intros z Hz. rewrite Hperm. apply elem_of_cons in Hz as [-> | Hz].
      * apply elem_of_cons. left. reflexivity.
      * apply elem_of_cons. right. apply Hsub, Hz.
Qed.

Lemma sample_NoDup {A : Type} (R : RandomSource) (population : list A) (k : nat)
    (g : rng R) (xs : list A) :
  randbelow_in_range R -> NoDup population ->
  fst (sample R population k g) = Ok xs -> NoDup xs.
Proof.
  intros HR Hnd. unfold sample.
  destruct (k <=? length population) eqn:Ek; cbn [negb]; [| discriminate].
  destruct ((k <=? 5) && (length population <=? 21)); [| discriminate].
  apply Nat.leb_le in Ek. intros Hs.
  apply (sample_pool_NoDup R k HR 0 (length population) population g xs eq_refl);
    [lia | | exact Hs].
  rewrite Nat.sub_0_r, take_ge by lia. exact Hnd.
Qed.

Lemma pools_NoDup : NoDup (lidah_pool ++ kuku_pool).
Proof. apply (bool_decide_unpack _). vm_compute. exact I. Qed.

Lemma get_risk_factors_ok (R : RandomSource)
    (lidah_diabetic kuku_diabetic : bool) (g : rng R) :
  randbelow_in_range R ->
  exists factors : list string,
    fst (get_risk_factors R lidah_diabetic kuku_diabetic g) = Ok factors /\
    length factors = 3 /\ NoDup factors /\
    forall x, x ∈ factors ->
      (lidah_diabetic = true /\ x ∈ lidah_pool) \/
      (kuku_diabetic = true /\ x ∈ kuku_pool) \/
      (lidah_diabetic = false /\ kuku_diabetic = false /\ x ∈ all_clear_factors).
Proof.
  intros HR. destruct (lidah_diabetic || kuku_diabetic) eqn:E.
  - destruct (get_risk_factors_sampled R _ _ g E) as (fs & Hc & Hlen & ->).
    destruct (sample_ok R fs 3 g HR ltac:(lia) ltac:(lia)) as [xs Hxs].
    destruct (sample_subset R fs 3 g xs Hxs) as [Hl3 Hsub].
    cbn [fst]. rewrite Hxs. exists (take 3 xs). split; [reflexivity |].
    rewrite candidate_factors_eq in Hc. injection Hc as <-.
    pose proof pools_NoDup as Hnd.
    assert (Hfs : NoDup ((if lidah_diabetic then lidah_pool else []) ++
                         (if kuku_diabetic then kuku_pool else []))).
    { apply NoDup_app in Hnd as (H1 & H2 & H3).
      destruct lidah_diabetic, kuku_diabetic; try discriminate E.
      - apply NoDup_app. auto.
      - rewrite app_nil_r. exact H1.
      - exact H3. }
    split; [rewrite length_take; lia |]. split.
    + assert (Hxn : NoDup xs) by (eapply sample_NoDup; eassumption).
      rewrite <- (take_drop 3 xs) in Hxn. apply NoDup_app in Hxn as [Hxn _]. exact Hxn.
    + intros x Hx. apply subseteq_take, Hsub, elem_of_app in Hx as [Hx | Hx].
      * destruct lidah_diabetic; [left; auto | inversion Hx].
      * destruct kuku_diabetic; [right; left; auto | inversion Hx].
  - apply orb_false_elim in E as [-> ->].
    exists all_clear_factors. split; [reflexivity |]. split; [reflexivity |]. split.
    + apply (bool_decide_unpack _). vm_compute. exact I.
    + intros x Hx. right; right. auto.
Qed.

(** X2. The three reported factors are pairwise distinct, and each comes from
    the pool of a modality that was found positive (from the all-clear list
    when none was). *)
Theorem factors_distinct_from_positive_pools (R : RandomSource)
    (lidah_diabetic kuku_diabetic : bool) (g : rng R) :
  randbelow_in_range R ->
  exists factors : list string,
    fst (get_risk_factors R lidah_diabetic kuku_diabetic g) = Ok factors /\
    NoDup factors /\
    forall x, x ∈ factors ->
      (lidah_diabetic = true /\ x ∈ lidah_pool) \/
      (kuku_diabetic = true /\ x ∈ kuku_pool) \/
      (lidah_diabetic = false /\ kuku_diabetic = false /\ x ∈ all_clear_factors).
Proof.
  intros HR.
  destruct (get_risk_factors_ok R lidah_diabetic kuku_diabetic g HR)
    as (factors & Hf & _ & Hnd & Hin).
  exists factors. auto.
Qed.

Lemma factors_distinct_from_positive_pools_witness :
  exists factors : list string,
    fst (get_risk_factors counter_source true false 5) = Ok factors /\
    NoDup factors /\
    forall x, x ∈ factors ->
      (true = true /\ x ∈ lidah_pool) \/
      (false = true /\ x ∈ kuku_pool) \/
      (true = false /\ false = false /\ x ∈ all_clear_factors).
Proof.
  exact (factors_distinct_from_positive_pools counter_source true false 5
           counter_source_randbelow).
Defined.

(* ================================================================= *)
(** ** The endpoints *)

Lemma truthy_nonempty (b : bytes) : b <> [] -> truthy_bytes (Some b) = true.
Proof. destruct b; [congruence | reflexivity]. Qed.

Lemma calculate_risk_level_band (R : RandomSource) (lidah_diabetic kuku_diabetic : bool)
    (g : rng R) :
  random_in_unit R ->
  match fst (fst (calculate_risk_level R lidah_diabetic kuku_diabetic g)) with
  | TINGGI => between (of_int 75)
  | SEDANG => between (of_int 45)
  | RENDAH => between (of_int 5)
  end (snd (fst (calculate_risk_level R lidah_diabetic kuku_diabetic g)))
  match fst (fst (calculate_risk_level R lidah_diabetic kuku_diabetic g)) with
  | TINGGI => of_int 95
  | SEDANG => of_int 70
  | RENDAH => of_int 25
  end = true.
Proof.
  intros HR.
  pose proof (uniform_between R 75 95 g HR ltac:(lia) ltac:(lia)) as [_ H1].
  pose proof (uniform_between R 45 70 g HR ltac:(lia) ltac:(lia)) as [_ H2].
  pose proof (uniform_between R 5 25 g HR ltac:(lia) ltac:(lia)) as [_ H3].
  unfold calculate_risk_level.
  destruct lidah_diabetic, kuku_diabetic; cbn [andb orb];
    match goal with |- context [uniform R ?a ?b g] => destruct (uniform R a b g) end;
    assumption.
Qed.

(** X3. A supplied, non-empty image that cannot be scored aborts [/predict] with
    status 500 and the exception's text, and leaves the random source
    untouched: first the tongue image, then, when the tongue image raised
    nothing, the nail image. *)
Theorem failed_scoring_aborts_request (self : DiabetesPredictor) (R : RandomSource)
    (lidah_image kuku_image : option UploadFile) (g : rng R) (e : exn) :
  (exists u, lidah_image = Some u /\ read u <> [] /\
             predict_lidah self (read u) = Raise e) \/
  ((forall u, lidah_image = Some u -> read u <> [] ->
              raises (predict_lidah self (read u)) = false) /\
   exists u, kuku_image = Some u /\ read u <> [] /\
             predict_kuku self (read u) = Raise e) ->
  predict_flexible (Some self) R lidah_image kuku_image g =
    (HTTPException 500 ("Prediction error: " ++ str e), g).
Proof.
  assert (Hb : forall (l : option UploadFile) (k : option bytes),
             (exists u, l = Some u /\ read u <> [] /\ predict_lidah self (read u) = Raise e) ->
             predict_both self (read <$> l) k = Raise e).
  { intros l k (u & -> & Hu & He). unfold predict_both.
    change (read <$> Some u) with (Some (read u)).
    rewrite (truthy_nonempty _ Hu).
    change (default [] (Some (read u))) with (read u). rewrite He. reflexivity. }
  assert (Hk : forall (l : option UploadFile) (k : option UploadFile),
             (forall u, l = Some u -> read u <> [] ->
                        raises (predict_lidah self (read u)) = false) ->
             (exists u, k = Some u /\ read u <> [] /\ predict_kuku self (read u) = Raise e) ->
             predict_both self (read <$> l) (read <$> k) = Raise e).
  { intros l k Hl (u & -> & Hu & He). unfold predict_both.
    change (read <$> Some u) with (Some (read u)).
    rewrite (truthy_nonempty _ Hu).
    change (default [] (Some (read u))) with (read u). rewrite He.
    destruct l as [v |]; [| reflexivity].
    change (read <$> Some v) with (Some (read v)).
    change (default [] (Some (read v))) with (read v).
    destruct (read v) as [| c b] eqn:Ev; cbn [truthy_bytes]; [reflexivity |].
    specialize (Hl v eq_refl). rewrite Ev in Hl. specialize (Hl ltac:(discriminate)).
    destruct (predict_lidah self (c :: b)); [reflexivity | discriminate Hl]. }
  intros H. unfold predict_flexible.
  replace (negb (bool_decide (is_Some lidah_image)) && negb (bool_decide (is_Some kuku_image)))
    with false.
  - destruct H as [H | [Hl H]]; [rewrite (Hb _ _ H) | rewrite (Hk _ _ Hl H)]; reflexivity.
  - destruct H as [(u & -> & _) | (_ & u & -> & _)]; [| destruct lidah_image]; reflexivity.
Qed.

Lemma failed_scoring_aborts_request_witness :
  predict_flexible (Some broken_predictor) counter_source
    (Some {| read := [x01] |}) (Some {| read := [x02] |}) 0 =
    (HTTPException 500 "Prediction error: inference failed", 0).
Proof.
  apply (failed_scoring_aborts_request broken_predictor counter_source
           (Some {| read := [x01] |}) (Some {| read := [x02] |}) 0
           {| exn_type := ModelError; str := "inference failed" |}).
  left. exists {| read := [x01] |}. split; [reflexivity |]. split; [discriminate | reflexivity].
Defined.

(** X4. On non-empty uploads [/predict] answers exactly as the dedicated
    endpoint for the same images, whether the predictor is loaded or not and
    whether scoring succeeds or fails. *)
Theorem flexible_agrees_with_dedicated (predictor : option DiabetesPredictor)
    (R : RandomSource) (u v : UploadFile) (g : rng R) :
  read u <> [] -> read v <> [] ->
  predict_flexible predictor R (Some u) None g = predict_lidah_only predictor R u g /\
  predict_flexible predictor R None (Some v) g = predict_kuku_only predictor R v g /\
  predict_flexible predictor R (Some u) (Some v) g = predict_both_endpoint predictor R u v g.
Proof.
  intros Hu Hv. destruct predictor as [self |]; [| repeat split; reflexivity].
  unfold predict_flexible, predict_lidah_only, predict_kuku_only, predict_both_endpoint,
    predict_both.
  change (read <$> Some u) with (Some (read u)).
  change (read <$> Some v) with (Some (read v)).
  change (read <$> None) with (@None bytes).
  change (negb (bool_decide (is_Some (Some u))) && _) with false.
  change (negb (bool_decide (is_Some (@None UploadFile))) && negb (bool_decide (is_Some (Some v))))
    with false.
  rewrite (truthy_nonempty _ Hu), (truthy_nonempty _ Hv). cbn [truthy_bytes].
  change (default [] (Some (read u))) with (read u).
  change (default [] (Some (read v))) with (read v).
  repeat split.
  - destruct (predict_lidah self (read u)); reflexivity.
  - destruct (predict_kuku self (read v)); reflexivity.
  - destruct (predict_lidah self (read u)); [| reflexivity].
    destruct (predict_kuku self (read v)); reflexivity.
Qed.

Lemma flexible_agrees_with_dedicated_witness :
  predict_flexible (Some (stub_predictor score_0_2 score_0_9)) counter_source
    (Some {| read := [x01] |}) None 3 =
  predict_lidah_only (Some (stub_predictor score_0_2 score_0_9)) counter_source
    {| read := [x01] |} 3 /\
  predict_flexible (Some (stub_predictor score_0_2 score_0_9)) counter_source
    None (Some {| read := [x02] |}) 3 =
  predict_kuku_only (Some (stub_predictor score_0_2 score_0_9)) counter_source
    {| read := [x02] |} 3 /\
  predict_flexible (Some (stub_predictor score_0_2 score_0_9)) counter_source
    (Some {| read := [x01] |}) (Some {| read := [x02] |}) 3 =
  predict_both_endpoint (Some (stub_predictor score_0_2 score_0_9)) counter_source
    {| read := [x01] |} {| read := [x02] |} 3.
Proof.
  apply (flexible_agrees_with_dedicated (Some (stub_predictor score_0_2 score_0_9))
           counter_source {| read := [x01] |} {| read := [x02] |} 3); discriminate.
Defined.

Lemma assemble_cases (R : RandomSource) (ld kd : bool)
    (l k : option SingleDetectionResult) (g : rng R) :
  match fst (assemble R ld kd l k g) with
  | Response resp =>
      risk_level resp = fst (fst (calculate_risk_level R ld kd g)) /\
      risk_percentage resp = snd (fst (calculate_risk_level R ld kd g)) /\
      lidah_result resp = l /\ kuku_result resp = k /\
      fst (get_risk_factors R ld kd (snd (calculate_risk_level R ld kd g))) =
        Ok (risk_factors_identified resp) /\
      recommendation resp = get_recommendation (risk_level resp)
  | HTTPException c _ => c = 500
  end.
Proof.
  unfold assemble.
  destruct (calculate_risk_level R ld kd g) as [[lvl pct] g1]. cbn [fst snd].
  destruct (get_risk_factors R ld kd g1) as [[fs | e] g2]; cbn; auto 10.
Qed.

(** X5. The status of [/predict]: 503 exactly when no predictor is loaded, 400
    exactly when one is loaded and no image part was sent, and otherwise
    200 or 500. *)
Theorem predict_flexible_status_codes (predictor : option DiabetesPredictor)
    (R : RandomSource) (lidah_image kuku_image : option UploadFile) (g : rng R) :
  match fst (predict_flexible predictor R lidah_image kuku_image g) with
  | Response _ => predictor <> None /\ (lidah_image <> None \/ kuku_image <> None)
  | HTTPException c _ =>
      (c = 503 /\ predictor = None) \/
      (c = 400 /\ predictor <> None /\ lidah_image = None /\ kuku_image = None) \/
      (c = 500 /\ predictor <> None /\ (lidah_image <> None \/ kuku_image <> None))
  end.
Proof.
  unfold predict_flexible. destruct predictor as [self |]; [| left; auto].
  assert (Himg : negb (bool_decide (is_Some lidah_image))
                 && negb (bool_decide (is_Some kuku_image)) = false ->
                 lidah_image <> None \/ kuku_image <> None).
  { destruct lidah_image, kuku_image; intros H; try discriminate H; auto. }
  destruct (negb (bool_decide (is_Some lidah_image))
            && negb (bool_decide (is_Some kuku_image))) eqn:E.
  - cbn [fst]. right; left. destruct lidah_image, kuku_image; try discriminate E. auto.
  - specialize (Himg eq_refl).
    destruct (predict_both self (read <$> lidah_image) (read <$> kuku_image))
      as [[l k] | e].
    + pose proof (assemble_cases R (is_diabetic_or_False l) (is_diabetic_or_False k) l k g) as H.
      destruct (fst (assemble R (is_diabetic_or_False l) (is_diabetic_or_False k) l k g))
        as [resp | c d].
      * split; [discriminate | exact Himg].
      * right; right. split; [exact H |]. split; [discriminate | exact Himg].
    + cbn [fst prediction_error]. right; right. split; [reflexivity |].
      split; [discriminate | exact Himg].
Qed.

Lemma predict_both_verdicts (self : DiabetesPredictor) (lb kb : option bytes)
    (l k : option SingleDetectionResult) :
  predict_both self lb kb = Ok (l, k) ->
  (if truthy_bytes lb then exists r, l = Some r /\ predict_lidah self (default [] lb) = Ok r
   else l = None) /\
  (if truthy_bytes kb then exists r, k = Some r /\ predict_kuku self (default [] kb) = Ok r
   else k = None).
Proof.
  unfold predict_both.
  destruct (truthy_bytes lb).
  - destruct (predict_lidah self (default [] lb)) as [rl |]; cbn; [| discriminate].
    destruct (truthy_bytes kb).
    + destruct (predict_kuku self (default [] kb)) as [rk |]; cbn; [| discriminate].
      intros [= <- <-]. repeat first [split | eexists | reflexivity].
    + cbn. intros [= <- <-]. repeat first [split | eexists | reflexivity].
  - cbn. destruct (truthy_bytes kb).
    + destruct (predict_kuku self (default [] kb)) as [rk |]; cbn; [| discriminate].
      intros [= <- <-]. repeat first [split | eexists | reflexivity].
    + cbn. intros [= <- <-]. repeat first [split | eexists | reflexivity].
Qed.

(** X6. Every assessment [/predict] returns is complete and consistent: a
    verdict is present exactly for each non-empty image and is the scorer's
    verdict for it, the tier follows the two flags, the percentage lies in
    the tier's band, there are three distinct factors, and the
    recommendation is the tier's. *)
Theorem successful_response_invariant (self : DiabetesPredictor) (R : RandomSource)
    (lidah_image kuku_image : option UploadFile) (g : rng R)
    (resp : DiabetesAnalysisResponse) :
  random_in_unit R -> randbelow_in_range R ->
  fst (predict_flexible (Some self) R lidah_image kuku_image g) = Response resp ->
  (if truthy_bytes (read <$> lidah_image)
   then exists r, lidah_result resp = Some r /\
                  predict_lidah self (default [] (read <$> lidah_image)) = Ok r
   else lidah_result resp = None) /\
  (if truthy_bytes (read <$> kuku_image)
   then exists r, kuku_result resp = Some r /\
                  predict_kuku self (default [] (read <$> kuku_image)) = Ok r
   else kuku_result resp = None) /\
  risk_level resp =
    (if is_diabetic_or_False (lidah_result resp) && is_diabetic_or_False (kuku_result resp)
     then TINGGI
     else if is_diabetic_or_False (lidah_result resp) || is_diabetic_or_False (kuku_result resp)
     then SEDANG else RENDAH) /\
  match risk_level resp with
  | TINGGI => between (of_int 75) (risk_percentage resp) (of_int 95)
  | SEDANG => between (of_int 45) (risk_percentage resp) (of_int 70)
  | RENDAH => between (of_int 5) (risk_percentage resp) (of_int 25)
  end = true /\
  length (risk_factors_identified resp) = 3 /\
  NoDup (risk_factors_identified resp) /\
  recommendation resp = get_recommendation (risk_level resp).
Proof.
  intros HR HB. unfold predict_flexible.
  destruct (negb (bool_decide (is_Some lidah_image))
            && negb (bool_decide (is_Some kuku_image))); [discriminate |].
  destruct (predict_both self (read <$> lidah_image) (read <$> kuku_image))
    as [[l k] | e] eqn:Epb; [| discriminate].
  destruct (predict_both_verdicts _ _ _ _ _ Epb) as [Hl Hk].
  set (ld := is_diabetic_or_False l). set (kd := is_diabetic_or_False k).
  pose proof (assemble_cases R ld kd l k g) as H.
  intros Hr. rewrite Hr in H. destruct H as (Hlvl & Hpct & <- & <- & Hfs & Hrec).
  fold ld kd.
  pose proof (calculate_risk_level_band R ld kd g HR) as Hband.
  rewrite <- Hlvl, <- Hpct in Hband.
  destruct (get_risk_factors_ok R ld kd (snd (calculate_risk_level R ld kd g)) HB)
    as (fs & Hfs' & Hlen & Hnd & _).
  rewrite Hfs in Hfs'. injection Hfs' as <-.
  split; [exact Hl |]. split; [exact Hk |].
  split; [rewrite Hlvl; apply calculate_risk_level_tier |].
  split; [destruct (risk_level resp); exact Hband |].
  auto.
Qed.

Lemma successful_response_invariant_witness :
  exists resp,
    fst (predict_flexible (Some (stub_predictor score_0_2 score_0_9)) counter_source
           (Some {| read := [x01] |}) None 2) = Response resp /\
    risk_level resp = SEDANG /\
    between (of_int 45) (risk_percentage resp) (of_int 70) = true /\
    length (risk_factors_identified resp) = 3 /\
    NoDup (risk_factors_identified resp).
Proof.
  destruct (fst (predict_flexible (Some (stub_predictor score_0_2 score_0_9)) counter_source
                   (Some {| read := [x01] |}) None 2)) as [resp | c d] eqn:E;
    [| vm_compute in E; discriminate E].
  exists resp. split; [reflexivity |].
  pose proof (successful_response_invariant (stub_predictor score_0_2 score_0_9)
                counter_source (Some {| read := [x01] |}) None 2 resp
                counter_source_random counter_source_randbelow E)
    as (Hl & Hk & Hlvl & Hband & Hlen & Hnd & _).
  assert (Hs : risk_level resp = SEDANG).
  { vm_compute in E. injection E as <-. reflexivity. }
  rewrite Hs in Hband. auto.
Defined.

(** X7. The dedicated endpoints never assess an empty upload: [/predict/kuku]
    answers it with the attribute error on [None], and [/predict/both]
    answers 500 as soon as one of its two files is empty, whatever the other
    image is. *)
Theorem dedicated_endpoints_reject_empty_upload (self : DiabetesPredictor)
    (R : RandomSource) (u v : UploadFile) (g : rng R) :
  read u = [] \/ read v = [] ->
  (read v = [] ->
     predict_kuku_only (Some self) R v g =
       (HTTPException 500
          "Prediction error: 'NoneType' object has no attribute 'is_diabetic'", g)) /\
  exists detail,
    predict_both_endpoint (Some self) R u v g = (HTTPException 500 detail, g).
Proof.
  intros H. split.
  - intros Hv. unfold predict_kuku_only, predict_both. rewrite Hv. reflexivity.
  - unfold predict_both_endpoint, predict_both.
    destruct (read u) as [| a bu] eqn:Eu; cbn [truthy_bytes].
    + change (Ok None ≫= _) with
        (kuku_result ← (if truthy_bytes (Some (read v))
                        then Some <$> predict_kuku self (default [] (Some (read v)))
                        else Ok None);
         Ok (@None SingleDetectionResult, kuku_result)).
      destruct (truthy_bytes (Some (read v))).
      * destruct (predict_kuku self (default [] (Some (read v)))); cbn; eexists; reflexivity.
      * cbn. eexists; reflexivity.
    + destruct H as [H | Hv]; [discriminate H |]. rewrite Hv.
      cbn -[predict_lidah assemble].
      destruct (predict_lidah self (a :: bu)); cbn; eexists; reflexivity.
Qed.

Lemma dedicated_endpoints_reject_empty_upload_witness :
  exists detail,
    predict_both_endpoint (Some (stub_predictor score_0_2 score_0_9)) counter_source
      {| read := [x01] |} {| read := [] |} 7 = (HTTPException 500 detail, 7).
Proof.
  apply (dedicated_endpoints_reject_empty_upload (stub_predictor score_0_2 score_0_9)
           counter_source {| read := [x01] |} {| read := [] |} 7).
  right. reflexivity.
Defined.

(** X8. [get_recommendation] never falls back to its default text: every tier
    has an entry of its own in the dict, opening with the tier's name, and
    different tiers get different texts. *)
Theorem recommendation_per_tier (r : RiskLevel) :
  recommendations !! RiskLevel_value r = Some (get_recommendation r) /\
  get_recommendation r <> "Please consult with a healthcare professional." /\
  String.prefix
    match r with
    | TINGGI => "High risk detected."
    | SEDANG => "Moderate risk detected."
    | RENDAH => "Low risk detected."
    end (get_recommendation r) = true /\
  forall r', get_recommendation r = get_recommendation r' -> r = r'.
Proof.
  split; [destruct r; reflexivity |].
  split; [destruct r; vm_compute; discriminate |].
  split; [destruct r; vm_compute; reflexivity |].
  intros r'. destruct r, r'; vm_compute; intros H; try reflexivity; discriminate H.
Qed.

(* ================================================================= *)
(** ** Image normalisation *)





(* ================================================================= *)
(** ** Percentages across tiers *)

Lemma band_fixed (R : RandomSource) (ld kd : bool) (g : rng R) :
  random_in_unit R ->
  good (snd (fst (calculate_risk_level R ld kd g))) /\
  (match fst (fst (calculate_risk_level R ld kd g)) with
   | TINGGI => 75 | SEDANG => 45 | RENDAH => 5 end * 2 ^ scale
   <= fixed (snd (fst (calculate_risk_level R ld kd g)))
   <= match fst (fst (calculate_risk_level R ld kd g)) with
      | TINGGI => 95 | SEDANG => 70 | RENDAH => 25 end * 2 ^ scale)%Z.
Proof.
  intros HR.
  assert (H : forall a b : Z, (0 <= a <= b)%Z -> (b < 2 ^ 53)%Z ->
            good (fst (uniform R a b g)) /\
            (a * 2 ^ scale <= fixed (fst (uniform R a b g)) <= b * 2 ^ scale)%Z).
  { intros a b Hab Hb. destruct (uniform_between R a b g HR Hab Hb) as [G B].
    destruct (Rounding.of_int_exact a ltac:(lia)) as [Ga Fa].
    destruct (Rounding.of_int_exact b ltac:(lia)) as [Gb Fb].
    split; [exact G |]. rewrite <- Fa, <- Fb.
    apply (Rounding.between_fixed _ _ _ Ga G Gb). exact B. }
  pose proof (H 75 95 ltac:(lia) ltac:(lia))%Z as H1.
  pose proof (H 45 70 ltac:(lia) ltac:(lia))%Z as H2.
  pose proof (H 5 25 ltac:(lia) ltac:(lia))%Z as H3.
  unfold calculate_risk_level.
  destruct ld, kd; cbn [andb orb];
    match goal with |- context [uniform R ?a ?b g] => destruct (uniform R a b g) end;
    assumption.
Qed.

(** X10. The bands do not overlap: a request assessed in a lower tier always
    carries a strictly smaller percentage than one assessed in a higher
    tier, whatever the random source draws for either. *)
Theorem percentage_orders_tiers (R : RandomSource) (l1 k1 l2 k2 : bool)
    (g1 g2 : rng R) :
  random_in_unit R ->
  RiskLevel_rank (fst (fst (calculate_risk_level R l1 k1 g1)))
    < RiskLevel_rank (fst (fst (calculate_risk_level R l2 k2 g2))) ->
  lt (snd (fst (calculate_risk_level R l1 k1 g1)))
     (snd (fst (calculate_risk_level R l2 k2 g2))) = true.
Proof.
  intros HR Hrank.
  destruct (band_fixed R l1 k1 g1 HR) as [G1 B1].
  destruct (band_fixed R l2 k2 g2 HR) as [G2 B2].
  apply (Rounding.lt_fixed _ _ G1 G2).
  pose proof (Rounding.pow2_pos scale ltac:(unfold scale; lia)) as PS.
  destruct (fst (fst (calculate_risk_level R l1 k1 g1)));
    destruct (fst (fst (calculate_risk_level R l2 k2 g2)));
    cbn [RiskLevel_rank] in Hrank; try lia.
Qed.

Lemma percentage_orders_tiers_witness :
  lt (snd (fst (calculate_risk_level counter_source false false 1)))
     (snd (fst (calculate_risk_level counter_source true false 2))) = true.
Proof.
  apply (percentage_orders_tiers counter_source false false true false 1 2
           counter_source_random).
  vm_compute. lia.
Defined.

(* ================================================================= *)
(** ** A missing image against a negative one *)

(** X11. Leaving the tongue image out, or sending one that scores negative,
    gives the same answer apart from the tongue verdict itself: the same
    error, or the same tier, percentage, factors, recommendation and nail
    verdict, and the same use of the random source. *)
Theorem absent_equals_negative_end_to_end (self : DiabetesPredictor) (R : RandomSource)
    (u : UploadFile) (kuku_image : UploadFile) (g : rng R) (r : SingleDetectionResult) :
  read u <> [] -> predict_lidah self (read u) = Ok r -> is_diabetic r = false ->
  snd (predict_flexible (Some self) R (Some u) (Some kuku_image) g) =
    snd (predict_flexible (Some self) R None (Some kuku_image) g) /\
  match fst (predict_flexible (Some self) R (Some u) (Some kuku_image) g),
        fst (predict_flexible (Some self) R None (Some kuku_image) g) with
  | Response a, Response b =>
      lidah_result a = Some r /\ lidah_result b = None /\
      kuku_result a = kuku_result b /\
      risk_level a = risk_level b /\
      risk_percentage a = risk_percentage b /\
      risk_factors_identified a = risk_factors_identified b /\
      recommendation a = recommendation b
  | HTTPException c d, HTTPException c' d' => c = c' /\ d = d'
  | _, _ => False
  end.
Proof.
  intros Hu Hr Hneg. unfold predict_flexible, predict_both.
  change (read <$> Some u) with (Some (read u)).
  change (read <$> Some kuku_image) with (Some (read kuku_image)).
  change (read <$> None) with (@None bytes).
  change (negb (bool_decide (is_Some (Some u))) && _) with false.
  change (negb (bool_decide (is_Some (@None UploadFile)))
          && negb (bool_decide (is_Some (Some kuku_image)))) with false.
  rewrite (truthy_nonempty _ Hu).
  change (default [] (Some (read u))) with (read u). rewrite Hr.
  destruct (read kuku_image) as [| c kb] eqn:Ek;
    cbn -[assemble predict_kuku is_diabetic].
  - rewrite Hneg. unfold assemble.
    destruct (calculate_risk_level R false false g) as [[lvl pct] g1].
    destruct (get_risk_factors R false false g1) as [[fs | e] g2]; cbn; auto 10.
  - destruct (predict_kuku self (c :: kb)) as [rk | e];
      cbn -[assemble is_diabetic]; [| auto].
    rewrite Hneg. unfold assemble.
    destruct (calculate_risk_level R false (is_diabetic rk) g) as [[lvl pct] g1].
    destruct (get_risk_factors R false (is_diabetic rk) g1) as [[fs | e] g2];
      cbn; auto 10.
Qed.

Lemma absent_equals_negative_end_to_end_witness :
  snd (predict_flexible (Some (stub_predictor score_0_9 score_0_9)) counter_source
         (Some {| read := [x01] |}) (Some {| read := [x02] |}) 0) =
  snd (predict_flexible (Some (stub_predictor score_0_9 score_0_9)) counter_source
         None (Some {| read := [x02] |}) 0).
Proof.
  refine (proj1 (absent_equals_negative_end_to_end (stub_predictor score_0_9 score_0_9)
                   counter_source {| read := [x01] |} {| read := [x02] |} 0
                   (lidah_verdict score_0_9) _ _ _)); [discriminate | reflexivity | reflexivity].
Defined.

(* ================================================================= *)
(** ** Start-up *)

(** X12. Start-up yields a predictor exactly when both model files load: the
    tongue model is loaded first from [models/lidah_model.h5], then the
    nail model from [models/kuku_model.h5]; the first failure is the error
    of the start-up, and a predictor once built resizes to 224 x 224. *)
Theorem startup_loads_both_models (I : Imaging)
    (load_model : string -> result (tensor -> result float)) :
  match startup_event I load_model with
  | Ok predictor =>
      exists self, predictor = Some self /\
        PIL self = I /\ img_size self = (224, 224) /\
        load_model "models/lidah_model.h5" = Ok (lidah_model self) /\
        load_model "models/kuku_model.h5" = Ok (kuku_model self)
  | Raise e =>
      load_model "models/lidah_model.h5" = Raise e \/
      (raises (load_model "models/lidah_model.h5") = false /\
       load_model "models/kuku_model.h5" = Raise e)
  end.
Proof.
  unfold startup_event, DiabetesPredictor_init.
  destruct (load_model "models/lidah_model.h5") as [lm | e]; cbn; [| left; reflexivity].
  destruct (load_model "models/kuku_model.h5") as [km | e]; cbn; [| right; auto].
  eexists. split; [reflexivity |]. cbn. auto.
Qed.
